(** * IntelliPort: the backport extension (src/extension.ts)

    A shallow embedding of the three routines of the extension that carry
    a contract, and the properties their specification states about them:

    - [modifyFileWithPatch]: the line-range patcher (section 4 of the source);
    - [fetchTags]: the paginated tag listing (section 2 of the source);
    - [checkoutTag]: the git checkout helper with its "dubious ownership"
      recovery (section 3 of the source).

    JavaScript strings are sequences of UTF-16 code units; file contents
    and patch texts are modelled as such, because [trimStart] and the regular
    expression of [split] look at single code units.  Shell commands, paths
    and messages are plain strings.  Line numbers are JavaScript numbers that
    hold integers, modelled in [Z]. *)

From Stdlib Require Import ZArith NArith List String Ascii Bool Lia DecimalString.
From stdpp Require Import gmap strings list.

Open Scope string_scope.
Open Scope list_scope.
Open Scope Z_scope.

(* ===================================================================== *)
(** ** Exceptions and the state-and-exception monad                       *)
(* ===================================================================== *)

(** What an [await] can throw in the three routines. *)
Inductive exn : Type :=
  | JsError (message : string)              (* new Error(message) *)
  | TypeError                               (* property read on undefined or null *)
  | RangeError                              (* String.prototype.repeat, negative count *)
  | IOError (path : string)                 (* fs.readFile rejected *)
  | ExecError (stderr message : option string) (* execAsync rejected *)
  | FetchError                              (* fetch rejected *)
  | SyntaxError.                            (* res.json() rejected *)

Inductive result (A : Type) : Type :=
  | Ok (a : A)
  | Throw (e : exn).
Arguments Ok {A} a.
Arguments Throw {A} e.

(** An asynchronous function over a store [St]: it returns or throws, and
    the store it leaves behind is there in both cases. *)
Definition M (St A : Type) : Type := St -> result A * St.

Definition ret {St A} (a : A) : M St A := fun st => (Ok a, st).
Definition throw {St A} (e : exn) : M St A := fun st => (Throw e, st).
Definition bind {St A B} (m : M St A) (k : A -> M St B) : M St B :=
  fun st =>
    match m st with
    | (Ok a, st') => k a st'
    | (Throw e, st') => (Throw e, st')
    end.
Definition lift {St A} (r : result A) : M St A := fun st => (r, st).

(** try { body } catch (err) { handler err } *)
Definition try_catch {St A} (body : M St A) (handler : exn -> M St A) : M St A :=
  fun st =>
    match body st with
    | (Ok a, st') => (Ok a, st')
    | (Throw e, st') => handler e st'
    end.

Declare Scope async_scope.
Delimit Scope async_scope with async.
Notation "'let*' x ':=' m 'in' k" := (bind m (fun x => k))
  (at level 10, x name, m at level 200, k at level 200) : async_scope.

(* ===================================================================== *)
(** ** JavaScript strings and arrays                                      *)
(* ===================================================================== *)

Module JS.

(** A string is its sequence of UTF-16 code units. *)
Abbreviation jsstring := (list N).

Definition LF : N := 10%N.
Definition CR : N := 13%N.
Definition TAB : N := 9%N.
Definition SPACE : N := 32%N.

Definition is_lf (c : N) : bool := N.eqb c LF.
Definition is_cr (c : N) : bool := N.eqb c CR.

(** The code units of an ASCII literal. *)
Definition lit (s : string) : jsstring :=
  List.map N_of_ascii (list_ascii_of_string s).

(** WhiteSpace and LineTerminator of ECMAScript, the characters that
    [trimStart] removes: TAB, LF, VT, FF, CR, SPACE, NBSP, the other
    space separators of Unicode, LS, PS and the byte order mark. *)
Definition is_whitespace (c : N) : bool :=
  (N.leb 9 c && N.leb c 13)
  || N.eqb c 32 || N.eqb c 160 || N.eqb c 5760
  || (N.leb 8192 c && N.leb c 8202)
  || N.eqb c 8232 || N.eqb c 8233 || N.eqb c 8239 || N.eqb c 8287
  || N.eqb c 12288 || N.eqb c 65279.

(** s.trimStart() *)
Fixpoint trimStart (s : jsstring) : jsstring :=
  match s with
  | [] => []
  | c :: s' => if is_whitespace c then trimStart s' else s
  end.

(** The run of white space that [trimStart] removes. *)
Fixpoint leading_ws (s : jsstring) : jsstring :=
  match s with
  | [] => []
  | c :: s' => if is_whitespace c then c :: leading_ws s' else []
  end.

(** s.repeat(count) on an integer count. *)
Definition repeat (s : jsstring) (count : Z) : result jsstring :=
  if count <? 0 then Throw RangeError
  else Ok (List.concat (replicate (Z.to_nat count) s)).

(** Puts a code unit in front of the first piece of a split. *)
Definition push_front (c : N) (pieces : list jsstring) : list jsstring :=
  match pieces with
  | [] => [[c]]
  | p :: ps => (c :: p) :: ps
  end.

(** s.split(/\r?\n/): the pieces between the matches, scanning from the
    left; at a CR followed by LF the match takes both, at an LF it takes
    one, and a CR with no LF behind it is an ordinary character.  The
    expression never matches the empty string, so the empty string
    splits into one empty piece. *)
Fixpoint split (s : jsstring) : list jsstring :=
  match s with
  | [] => [[]]
  | c :: s' =>
      if is_lf c then [] :: split s'
      else
        match s' with
        | d :: s'' =>
            if is_cr c && is_lf d then [] :: split s''
            else push_front c (split s')
        | [] => push_front c (split s')
        end
  end.

(** pieces.join(sep) on an array of strings. *)
Fixpoint join (sep : jsstring) (pieces : list jsstring) : jsstring :=
  match pieces with
  | [] => []
  | p :: ps =>
      match ps with
      | [] => p
      | _ :: _ => p ++ sep ++ join sep ps
      end
  end.

(** The index that [slice] derives from a relative argument. *)
Definition clamp_index (len rel : Z) : Z :=
  if rel <? 0 then Z.max (len + rel) 0 else Z.min rel len.

(** arr.slice(start, end); [None] is an omitted [end]. *)
Definition slice {A} (arr : list A) (start : Z) (end_ : option Z) : list A :=
  let len := Z.of_nat (length arr) in
  let k := clamp_index len start in
  let final := match end_ with
               | Some e => clamp_index len e
               | None => len
               end in
  take (Z.to_nat (final - k)) (drop (Z.to_nat k) arr).

(** arr[i] followed by a property read: reading a property of
    [undefined] throws. *)
Definition index {A} (arr : list A) (i : Z) : result A :=
  if i <? 0 then Throw TypeError
  else match arr !! Z.to_nat i with
       | Some x => Ok x
       | None => Throw TypeError
       end.

(** s.length *)
Definition len (s : jsstring) : Z := Z.of_nat (length s).

(** Whether a CR immediately followed by an LF occurs in the string. *)
Fixpoint has_crlf (s : jsstring) : bool :=
  match s with
  | [] => false
  | c :: s' =>
      match s' with
      | d :: _ => (is_cr c && is_lf d) || has_crlf s'
      | [] => false
      end
  end.

(** Whether the string begins with an LF. *)
Definition starts_with_lf (s : jsstring) : bool :=
  match s with
  | d :: _ => is_lf d
  | [] => false
  end.

(** Whether the string begins with a character that [trimStart] removes. *)
Definition starts_with_whitespace (s : jsstring) : bool :=
  match s with
  | c :: _ => is_whitespace c
  | [] => false
  end.

(** Whether the last code unit is a CR. *)
Definition ends_with_cr (s : jsstring) : bool :=
  match last s with
  | Some c => is_cr c
  | None => false
  end.

(** text.includes(pattern) on plain strings. *)
Definition includes (pattern text : string) : bool :=
  match String.index 0 pattern text with
  | Some _ => true
  | None => false
  end.

End JS.

Import JS.

(* ===================================================================== *)
(** ** 4. Replace numeric line-range with patch                           *)
(* ===================================================================== *)

(** The files on disk, by absolute path, each with its decoded text. *)
Abbreviation disk := (gmap string jsstring).

(** fs.readFile(absPath, 'utf8') *)
Definition readFile (absPath : string) : M disk jsstring :=
  fun d =>
    match d !! absPath with
    | Some raw => (Ok raw, d)
    | None => (Throw (IOError absPath), d)
    end.

(** fs.writeFile(absPath, data, 'utf8') *)
Definition writeFile (absPath : string) (data : jsstring) : M disk unit :=
  fun d => (Ok tt, <[absPath := data]> d).

(** new Error('Invalid line range') *)
Definition InvalidRange : exn := JsError "Invalid line range".

Definition NL : jsstring := [LF].

(** The [indent] of the source: as many spaces as the line loses to
    [trimStart]. *)
Definition indent_of (line : jsstring) : result jsstring :=
  JS.repeat [SPACE] (len line - len (trimStart line)).

(** The [indentedPatch] of the source. *)
Definition indentedPatch (indent patch : jsstring) : jsstring :=
  join NL (List.map (fun l => indent ++ l) (split patch)).

(** The [updated] text of the source. *)
Definition updated (lines : list jsstring) (startLine endLine : Z)
    (block : jsstring) : jsstring :=
  join NL (slice lines 0 (Some (startLine - 1)) ++ [block] ++ slice lines endLine None).

Definition modifyFileWithPatch (absPath : string) (startLine endLine : Z)
    (patch : jsstring) : M disk unit :=
  (let* raw := readFile absPath in
   let lines := split raw in
   if (startLine <=? 0) || (endLine >? Z.of_nat (length lines)) || (startLine >? endLine)
   then throw InvalidRange
   else
     let* line := lift (index lines (startLine - 1)) in
     let* indent := lift (indent_of line) in
     writeFile absPath (updated lines startLine endLine (indentedPatch indent patch)))%async.

(* ===================================================================== *)
(** ** 2. Fetch all tags (pagination)                                     *)
(* ===================================================================== *)

(** A parsed JSON document.  An object is what [JSON.parse] builds: it
    has every member name once. *)
#[local] Unset Elimination Schemes.
Inductive json : Type :=
  | JNull
  | JBool (b : bool)
  | JNumber (literal : string)
  | JString (s : string)
  | JArray (items : list json)
  | JObject (members : list (string * json)).
#[local] Set Elimination Schemes.

(** A value read off a parsed document; [None] is [undefined]. *)
Definition jsvalue : Type := option json.

(** The member of that name, if there is one. *)
Fixpoint member (key : string) (members : list (string * json)) : jsvalue :=
  match members with
  | [] => None
  | (k, v) :: rest => if String.eqb k key then Some v else member key rest
  end.

(** t.name: a property read throws on null, finds the member of an
    object and is undefined on everything else. *)
Definition get_name (t : json) : result jsvalue :=
  match t with
  | JNull => Throw TypeError
  | JObject members => Ok (member "name" members)
  | _ => Ok None
  end.

(** data.map(t => t.name) *)
Fixpoint map_names (data : list json) : result (list jsvalue) :=
  match data with
  | [] => Ok []
  | t :: rest =>
      match get_name t with
      | Throw e => Throw e
      | Ok name =>
          match map_names rest with
          | Throw e => Throw e
          | Ok names => Ok (name :: names)
          end
      end
  end.

(** What one request comes back with: [fetch] rejects, the body is not
    JSON, or [res.json()] yields a document. *)
Inductive response : Type :=
  | Rejected
  | NotJson
  | Parsed (data : json).

Record request : Type := { url : string; authorization : string }.

Definition TENSORFLOW_REPO : string :=
  "https://api.github.com/repos/tensorflow/tensorflow".

Definition decimal (n : nat) : string := NilZero.string_of_uint (Nat.to_uint n).

Definition tags_request (token : string) (page : nat) : request :=
  {| url := TENSORFLOW_REPO +:+ "/tags?per_page=100&page=" +:+ decimal page;
     authorization := "Bearer " +:+ token |}.

Section Tags.

(** The responses of the remote end, in the order of the requests: the
    request number [i] (from 0) is answered by [responses i]. *)
Variable responses : nat -> response.

(** fetch(url, ...) followed by res.json(); the store is the list of the
    requests sent so far. *)
Definition fetch_json (req : request) : M (list request) json :=
  fun sent =>
    match responses (length sent) with
    | Rejected => (Throw FetchError, sent ++ [req])
    | NotJson => (Throw SyntaxError, sent ++ [req])
    | Parsed data => (Ok data, sent ++ [req])
    end.

(** The loop of [fetchTags] from [page] on, with the tags pushed so far.
    The loop has no bound of its own: [None] is a run that is still
    going after [fuel] rounds. *)
Fixpoint fetchTags_from (fuel : nat) (token : string) (page : nat)
    (tags : list jsvalue) (sent : list request)
    : option (result (list jsvalue) * list request) :=
  match fuel with
  | O => None
  | S fuel' =>
      match fetch_json (tags_request token page) sent with
      | (Throw e, sent') => Some (Throw e, sent')
      | (Ok data, sent') =>
          match data with
          | JArray [] => Some (Ok tags, sent')
          | JArray items =>
              match map_names items with
              | Throw e => Some (Throw e, sent')
              | Ok names => fetchTags_from fuel' token (S page) (tags ++ names) sent'
              end
          | _ => Some (Ok tags, sent')
          end
      end
  end.

Definition fetchTags (fuel : nat) (token : string)
    : option (result (list jsvalue) * list request) :=
  fetchTags_from fuel token 1%nat [] [].

(** The response to the request for [page]; pages count from 1. *)
Definition page_response (page : nat) : response := responses (Nat.pred page).

End Tags.

(** The response is an array with an element in it, and the name of every
    element can be read. *)
Definition is_tag_page (r : response) : bool :=
  match r with
  | Parsed (JArray (t :: rest)) =>
      match map_names (t :: rest) with
      | Ok _ => true
      | Throw _ => false
      end
  | _ => false
  end.

(** The names on a page of tags. *)
Definition names_of (r : response) : list jsvalue :=
  match r with
  | Parsed (JArray items) =>
      match map_names items with
      | Ok names => names
      | Throw _ => []
      end
  | _ => []
  end.

(** Array.isArray(data) *)
Definition is_array (data : json) : bool :=
  match data with
  | JArray _ => true
  | _ => false
  end.

(* ===================================================================== *)
(** ** 3. Git checkout helper (handles "dubious ownership")               *)
(* ===================================================================== *)

(** What the helper does to the world, in order. *)
Inductive event : Type :=
  | Exec (command : string) (cwd : option string)
  | ShowInformation (message : string)
  | ShowWarning (message : string) (items : list string)
  | ShowError (message : string).

Inductive exec_outcome : Type :=
  | ExecOk
  | ExecFails (stderr message : option string).

(** The world around the helper: the workspace folder, how the successive
    calls of [execAsync] end (call number [i], from 0), and what the user
    answers to the modal warning ([None]: dismissed). *)
Record host : Type := {
  workspaceFolder : option string;
  exec_outcomes : nat -> exec_outcome;
  warning_answer : option string
}.

Definition dquote : string := String (ascii_of_nat 34) EmptyString.

(** How many calls of [execAsync] the log holds. *)
Fixpoint exec_count (log : list event) : nat :=
  match log with
  | [] => O
  | Exec _ _ :: log' => S (exec_count log')
  | _ :: log' => exec_count log'
  end.

(** The commands run so far, in order. *)
Definition commands (log : list event) : list string :=
  flat_map (fun e => match e with Exec c _ => [c] | _ => [] end) log.


Definition fetch_cmd : string := "git fetch --tags".
Definition checkout_cmd (tag : string) : string := "git checkout " +:+ tag.
Definition safe_directory_cmd (ws : string) : string :=
  "git config --global --add safe.directory " +:+ dquote +:+ ws +:+ dquote.

(** `${msg}` *)
Definition template (v : option string) : string :=
  match v with
  | Some s => s
  | None => "undefined"
  end.

(** err?.stderr ?? err?.message.  Only a rejected [execAsync] is ever
    caught by the helper; an [Error] made by [new] has a message and no
    stderr. *)
Definition error_text (err : exn) : option string :=
  match err with
  | ExecError stderr message =>
      match stderr with
      | Some s => Some s
      | None => message
      end
  | JsError message => Some message
  | _ => None
  end.

(** msg?.includes('dubious ownership') as a condition. *)
Definition mentions_dubious_ownership (msg : option string) : bool :=
  match msg with
  | Some s => includes "dubious ownership" s
  | None => false
  end.

(** ok === text, for what a prompt returned. *)
Definition strict_eq (ok : option string) (text : string) : bool :=
  match ok with
  | Some s => String.eqb s text
  | None => false
  end.

(** String(e) of a thrown error: the name of the error and its message.
    The messages of the errors that the runtime makes are not modelled; the
    checkout helper throws none of them. *)
Definition exn_to_string (e : exn) : string :=
  match e with
  | JsError message => "Error: " +:+ message
  | ExecError _ (Some message) => "Error: " +:+ message
  | ExecError _ None => "Error"
  | TypeError => "TypeError"
  | RangeError => "RangeError"
  | IOError path => "Error: " +:+ path
  | FetchError => "FetchError"
  | SyntaxError => "SyntaxError"
  end.


Section Checkout.

Variable h : host.

Definition execAsync (command : string) (cwd : option string) : M (list event) unit :=
  fun log =>
    let log' := log ++ [Exec command cwd] in
    match exec_outcomes h (exec_count log) with
    | ExecOk => (Ok tt, log')
    | ExecFails stderr message => (Throw (ExecError stderr message), log')
    end.

Definition showInformationMessage (message : string) : M (list event) unit :=
  fun log => (Ok tt, log ++ [ShowInformation message]).

Definition showErrorMessage (message : string) : M (list event) unit :=
  fun log => (Ok tt, log ++ [ShowError message]).

Definition showWarningMessage (message : string) (items : list string)
    : M (list event) (option string) :=
  fun log => (Ok (warning_answer h), log ++ [ShowWarning message items]).

Definition dubious_warning : string :=
  "Git reports “dubious ownership”. Add this repo to safe.directory and retry?".

Definition checkoutTag (tag : string) : M (list event) unit :=
  match workspaceFolder h with
  | None | Some EmptyString => throw (JsError "Open a workspace folder first")
  | Some ws =>
      try_catch
        (let* _ := execAsync fetch_cmd (Some ws) in
         let* _ := execAsync (checkout_cmd tag) (Some ws) in
         showInformationMessage ("Checked out tag " +:+ dquote +:+ tag +:+ dquote))%async
        (fun err =>
           let msg := error_text err in
           let failed := throw (JsError ("Git checkout failed: " +:+ template msg)) in
           if mentions_dubious_ownership msg then
             (let* ok := showWarningMessage dubious_warning ["Add & Retry"] in
              if strict_eq ok "Add & Retry" then
                let* _ := execAsync (safe_directory_cmd ws) None in
                let* _ := execAsync (checkout_cmd tag) (Some ws) in
                showInformationMessage
                  ("safe.directory added and checked out " +:+ dquote +:+ tag +:+ dquote +:+ ".")
              else failed)%async
           else failed)
  end.

(** The checkout step of [backportToCommand]: a failure is shown to the
    user and the command returns ([false]). *)
Definition checkout_step (tag : string) : M (list event) bool :=
  try_catch
    (let* _ := checkoutTag tag in ret true)%async
    (fun e => let* _ := showErrorMessage (exn_to_string e) in ret false)%async.

End Checkout.

(* ===================================================================== *)
(** ** Fixtures                                                           *)
(* ===================================================================== *)

Definition sample_path : string := "/ws/tensorflow/cc/tools/freeze_saved_model_test.cc".

(** A disk with one file. *)
Definition on_disk (raw : jsstring) : disk := {[ sample_path := raw ]}.

(** Five lines separated by LF, the second indented by four spaces. *)
Definition five_lines : jsstring :=
  lit "int a;" ++ [LF] ++ lit "    int b;" ++ [LF] ++ lit "int c;" ++ [LF]
    ++ lit "int d;" ++ [LF] ++ lit "int e;".

(** Two lines, the first indented by two tabs. *)
Definition tab_indented : jsstring := [TAB; TAB] ++ lit "return x;" ++ [LF] ++ lit "}".

(** One line and a final newline. *)
Definition newline_terminated : jsstring := lit "a" ++ [LF].

(** Two lines separated by CR LF. *)
Definition crlf_file : jsstring := lit "a" ++ [CR; LF] ++ lit "b".


(** A patch text of two lines. *)
Definition two_line_patch : jsstring := lit "if (b) {" ++ [LF] ++ lit "}".

(** A tag as the listing returns it. *)
Definition tag_object (name commit : string) : json :=
  JObject [("name", JString name);
           ("commit", JObject [("sha", JString commit)])].

(** Three pages of tags and empty pages behind them. *)
Definition three_pages (i : nat) : response :=
  match i with
  | 0%nat => Parsed (JArray [tag_object "v2.16.1" "5bc9d26"; tag_object "v2.16.0" "f41959c"])
  | 1%nat => Parsed (JArray [tag_object "v2.15.1" "0b15fdf"])
  | 2%nat => Parsed (JArray [tag_object "v2.15.0" "6887368"; tag_object "v2.14.1" "4dacf3f"])
  | _ => Parsed (JArray [])
  end.

(** One page of tags, then the error document of the remote end. *)
Definition rate_limited (i : nat) : response :=
  match i with
  | 0%nat => Parsed (JArray [tag_object "v2.16.1" "5bc9d26"; tag_object "v2.16.0" "f41959c"])
  | _ => Parsed (JObject [("message", JString "API rate limit exceeded")])
  end.


(** The checkout (call 1) fails with [stderr]; every other call succeeds. *)
Definition checkout_fails (stderr : string) (i : nat) : exec_outcome :=
  match i with
  | 1%nat => ExecFails (Some stderr) (Some ("Command failed: git checkout v2.15.0"))
  | _ => ExecOk
  end.




(** Runs the calls of the helper one after the other, with what is known
    of their outcomes. *)
Ltac run_checkout :=
  repeat first
    [ progress cbn -[String.append mentions_dubious_ownership strict_eq error_text template
                     fetch_cmd checkout_cmd safe_directory_cmd dubious_warning]
    | match goal with
      | H : exec_outcomes _ _ = _ |- _ => rewrite H
      | H : mentions_dubious_ownership _ = _ |- _ => rewrite H
      | H : strict_eq _ _ = _ |- _ => rewrite H
      end ].

(* ===================================================================== *)
(** ** 1. GitHub token helpers                                            *)
(* ===================================================================== *)

(** What a command of the extension does to the world, in order: what the
    helpers above do (commands run, messages shown), the prompts for a text
    and for a choice, the requests for the pages of tags and the request to
    the patch service.  Console output is not part of the model. *)
Inductive action : Type :=
  | Host (e : event)
  | InputBox (prompt placeHolder : string) (password : bool)
  | QuickPick (items : list jsvalue) (placeHolder : string)
  | Get (req : request)
  | Post (url commitHash targetVersion : string).

(** The world of a command: the global state of the extension context (the
    values it holds are the strings this extension stores), the files on
    disk and what has been done so far. *)
Record world : Type := {
  globalState : gmap string string;
  files : disk;
  trace : list action
}.

Definition record_action (a : action) (w : world) : world :=
  {| globalState := globalState w; files := files w; trace := trace w ++ [a] |}.

(** What the patch service answers with, as its interface declares it. *)
Record PatchResponse : Type := {
  filePath : string;
  startLine : Z;
  endLine : Z;
  patch : jsstring
}.

(** How [axios.post] ends: with the data of the response, which is the
    parsed body whatever its shape (nothing checks it against the
    interface); with an axios error, of which the handler reads the status
    of the response, if there is one, and the text that
    [error.response?.data || error.message] gives in the template; or with
    any other error. *)
Inductive axios_outcome : Type :=
  | AxiosOk (data : json)
  | AxiosError (status : option nat) (detail : string)
  | OtherFailure (e : exn).

(** How the apply block ends on data that is not null and has not the
    shape of the interface: the block ran through and shows "Patched" with
    what the template makes of the file path; or something in it threw and
    it shows "Failed to patch" with that and the text of the error; or the
    template of the handler threw in its turn. *)
Inductive untyped_outcome : Type :=
  | UntypedPatched (path : string)
  | UntypedFailed (path error : string)
  | UntypedThrown (e : exn).

(** The surroundings of a command: the git side, with what the call number
    [i] of [execAsync] does to the files (the fetch writes under .git, the
    checkout puts the files of the tag in the working tree, the remediation
    writes the configuration of the user), whether it succeeds or not; what
    the user types for the token and for the commit; the pages of tags;
    what the user picks from a list; what the patch service does with a
    request; what the user answers when offered the test patch; and what
    the apply block makes of data without the shape of the interface, with
    the files it leaves. *)
Record session : Type := {
  git : host;
  git_writes : nat -> disk -> disk;
  token_input : option string;
  commit_input : option string;
  tag_pages : nat -> response;
  tag_choice : list jsvalue -> option string;
  patch_api : string -> string -> axios_outcome;
  test_patch_answer : option string;
  untyped_apply : json -> disk -> untyped_outcome * disk
}.

Definition TOKEN_KEY : string := "githubToken".

(** vscode.window.show...Message(message) on the world. *)
Definition show (e : event) : M world unit :=
  fun w => (Ok tt, record_action (Host e) w).

(** ctx.globalState.get<string>('githubToken') *)
Definition getGitHubToken : M world (option string) :=
  fun w => (Ok (globalState w !! TOKEN_KEY), w).

(** ctx.globalState.update('githubToken', token) *)
Definition update_token (token : string) : M world unit :=
  fun w => (Ok tt, {| globalState := <[TOKEN_KEY := token]> (globalState w);
                      files := files w; trace := trace w |}).

(** A helper of an earlier section, run by a command: the files are
    those of the world. *)
Definition on_files {A} (m : M disk A) : M world A :=
  fun w =>
    let (r, d') := m (files w) in
    (r, {| globalState := globalState w; files := d'; trace := trace w |}).

(** The files after the calls of [execAsync] in [log], the first of which
    is call number [i]. *)
Fixpoint after_calls (writes : nat -> disk -> disk) (i : nat) (log : list event)
    (d : disk) : disk :=
  match log with
  | [] => d
  | Exec _ _ :: log' => after_calls writes (S i) log' (writes i d)
  | _ :: log' => after_calls writes i log' d
  end.

(** The git helper, run by a command: what it does goes to the trace, and
    the files are what its commands leave.  The helper reads no file, so
    that the writes of its commands can be put behind it. *)
Definition on_host {A} (writes : nat -> disk -> disk) (m : M (list event) A) : M world A :=
  fun w =>
    let (r, log) := m [] in
    (r, {| globalState := globalState w;
           files := after_calls writes 0 log (files w);
           trace := trace w ++ List.map Host log |}).

Definition PATCH_API_URL : string := "https://7834-192-248-14-69.ngrok-free.app/run".

(** `${error.response?.status}` *)
Definition status_text (status : option nat) : string :=
  match status with
  | Some n => decimal n
  | None => "undefined"
  end.

Definition newline : string := String (ascii_of_nat 10) EmptyString.

(** The text of the patch that the command falls back to; [trim] finds
    no white space at its ends. *)
Definition test_patch_text : string :=
  "void ExampleFunction() {" +:+ newline
  +:+ "  // This is the updated implementation" +:+ newline
  +:+ "  int x = 42;" +:+ newline
  +:+ "  printf(" +:+ dquote +:+ "%d" +:+ dquote +:+ ", x);" +:+ newline
  +:+ "}".

(** The patch that the command falls back to, an object with the four
    members of the interface. *)
Definition test_patch : json :=
  JObject
    [("filePath", JString "tensorflow/cc/tools/freeze_saved_model_test.cc");
     ("startLine", JNumber "16");
     ("endLine", JNumber "17");
     ("patch", JString test_patch_text)].

(** The integer that the literal of a JSON number stands for, where the
    literal is an integer written without fraction and exponent, of fifteen
    characters at most: such a number is the same in JavaScript. *)
Definition integer_of_literal (literal : string) : option Z :=
  if (String.length literal <=? 15)%nat
  then option_map Z.of_int (NilZero.int_of_string literal)
  else None.

Definition string_member (key : string) (data : json) : option string :=
  match data with
  | JObject members =>
      match member key members with
      | Some (JString text) => Some text
      | _ => None
      end
  | _ => None
  end.

Definition integer_member (key : string) (data : json) : option Z :=
  match data with
  | JObject members =>
      match member key members with
      | Some (JNumber literal) => integer_of_literal literal
      | _ => None
      end
  | _ => None
  end.

(** The data read as the interface declares it, where it has that shape:
    an object whose members filePath and patch are strings and whose
    members startLine and endLine are integers. *)
Definition as_PatchResponse (data : json) : option PatchResponse :=
  match string_member "filePath" data, integer_member "startLine" data,
        integer_member "endLine" data, string_member "patch" data with
  | Some path, Some first, Some last, Some text =>
      Some {| filePath := path; startLine := first; endLine := last; patch := lit text |}
  | _, _, _, _ => None
  end.

(** The world with more done. *)
Definition extend (l : list action) (w : world) : world :=
  {| globalState := globalState w; files := files w; trace := trace w ++ l |}.

(** The world with other files. *)
Definition with_files (d : disk) (w : world) : world :=
  {| globalState := globalState w; files := d; trace := trace w |}.

(** The prompts of the commands. *)
Definition token_prompt : action :=
  InputBox "Enter your GitHub Personal Access Token" "github …" true.

Definition commit_prompt : action :=
  InputBox "Full or short SHA" "Commit SHA to backport" false.

Definition fallback_prompt : event :=
  ShowWarning "Backend API is not available. Use test patch for demonstration?"
    ["Use Test Patch"; "Cancel"].

Section Command.

Variable s : session.

(** vscode.Uri.joinPath(folder, path).fsPath, which the editor provides. *)
Variable joinPath : string -> string -> string.

(** String(e) of an error that the runtime makes (a failed read of a file,
    a read of a property of undefined), name and message. *)
Variable runtime_text : exn -> string.

(** `${e}` of what the apply block catches: an [Error] with its message,
    or an error of the runtime. *)
Definition error_string (e : exn) : string :=
  match e with
  | JsError message => "Error: " +:+ message
  | ExecError _ (Some message) => "Error: " +:+ message
  | ExecError _ None => "Error"
  | _ => runtime_text e
  end.

Definition setGitHubToken : M world unit :=
  fun w =>
    let w1 := record_action token_prompt w in
    match token_input s with
    | None | Some EmptyString => (Ok tt, w1)
    | Some token =>
        (let* _ := update_token token in
         show (ShowInformation "GitHub token saved."))%async w1
    end.

(** 4.1. API call *)
Definition callPatchApi (commitHash targetVersion : string) : M world json :=
  fun w =>
    let w1 := record_action (Post PATCH_API_URL commitHash targetVersion) w in
    match patch_api s commitHash targetVersion with
    | AxiosOk data => (Ok data, w1)
    | AxiosError status detail =>
        (Throw (JsError ("API responded " +:+ status_text status +:+ ": " +:+ detail)), w1)
    | OtherFailure e => (Throw e, w1)
    end.

(** The "call API" block of [backportToCommand]: the patch to apply, or
    [None] where the command returns. *)
Definition call_api (commitHash tag : string) : M world (option json) :=
  try_catch
    (let* _ := show (ShowInformation "Calling backport API...") in
     let* data := callPatchApi commitHash tag in
     let* _ := show (ShowInformation "API call successful!") in
     ret (Some data))%async
    (fun _ =>
       let* _ := show fallback_prompt in
       if strict_eq (test_patch_answer s) "Use Test Patch" then
         let* _ := show (ShowInformation "Using test patch for demonstration") in
         ret (Some test_patch)
       else ret None)%async.

(** The "apply patch" block of [backportToCommand].  On data with the
    shape of the interface it runs the patcher and shows how that ended.
    On null the read of [patch.filePath] throws in the block and once more
    in the template of the handler, from where nothing catches it.  On any
    other data JavaScript goes on with the values as they are; what
    [joinPath] and the patcher make of them is not followed here: the
    session says how the block ends and with which files. *)
Definition apply_patch (data : json) : M world unit :=
  match as_PatchResponse data with
  | Some p =>
      try_catch
        (let* abs := lift (match workspaceFolder (git s) with
                           | Some ws => Ok (joinPath ws (filePath p))
                           | None => Throw TypeError
                           end) in
         let* _ := on_files (modifyFileWithPatch abs (startLine p) (endLine p) (patch p)) in
         show (ShowInformation ("Patched " +:+ filePath p)))%async
        (fun e =>
           show (ShowError ("Failed to patch " +:+ filePath p +:+ ": " +:+ error_string e)))
  | None =>
      match data with
      | JNull => throw TypeError
      | _ =>
          fun w =>
            let (outcome, d') := untyped_apply s data (files w) in
            let w1 := with_files d' w in
            match outcome with
            | UntypedPatched path => show (ShowInformation ("Patched " +:+ path)) w1
            | UntypedFailed path error =>
                show (ShowError ("Failed to patch " +:+ path +:+ ": " +:+ error)) w1
            | UntypedThrown e => (Throw e, w1)
            end
      end
  end.

(** [backportToCommand] from the choice of the tag on. *)
Definition backport_with_tags (commitHash : string) (tags : list jsvalue) : M world unit :=
  fun w =>
    let w1 := record_action (QuickPick tags "Select the target tag") w in
    match tag_choice s tags with
    | None | Some EmptyString => (Ok tt, w1)
    | Some tag =>
        (let* checked_out := on_host (git_writes s) (checkout_step (git s) tag) in
         if checked_out : bool then
           let* data := call_api commitHash tag in
           match data with
           | Some data => apply_patch data
           | None => ret tt
           end
         else ret tt)%async w1
    end.

(** 5. Main backport command.  The listing of the tags is the one loop
    without a bound: [None] is a run in which it is still going after
    [fuel] rounds. *)
Definition backportToCommand (fuel : nat) (w : world) : option (result unit * world) :=
  match globalState w !! TOKEN_KEY with
  | None | Some EmptyString =>
      Some (show (ShowError "GitHub token not set. Run “Set GitHub Token…” first.") w)
  | Some token =>
      let w1 := record_action commit_prompt w in
      match commit_input s with
      | None | Some EmptyString => Some (Ok tt, w1)
      | Some commitHash =>
          match fetchTags (tag_pages s) fuel token with
          | None => None
          | Some (r, sent) =>
              let w2 := extend (List.map Get sent) w1 in
              match r with
              | Throw e => Some (Throw e, w2)
              | Ok tags => Some (backport_with_tags commitHash tags w2)
              end
          end
      end
  end.

End Command.

(** The files that the git commands of [log] leave of [d]. *)
Definition git_leaves (s : session) (log : list event) (d : disk) : disk :=
  after_calls (git_writes s) 0 log d.

(** The data is what a run of the command has to apply: the test patch, or
    an answer of the patch service. *)
Definition to_apply (s : session) (data : json) : Prop :=
  data = test_patch \/ exists commit tag, patch_api s commit tag = AxiosOk data.

(** The patch service gives an answer that is not null and has not the
    shape of the interface. *)
Definition untyped_answer (s : session) : Prop :=
  exists commit tag data,
    patch_api s commit tag = AxiosOk data /\ data <> JNull /\ as_PatchResponse data = None.

(** The commands, the requests for tags and the requests to the patch
    service in a trace, each in order. *)
Definition commands_in (t : list action) : list string :=
  flat_map (fun a => match a with Host (Exec c _) => [c] | _ => [] end) t.

Definition gets_in (t : list action) : list request :=
  flat_map (fun a => match a with Get r => [r] | _ => [] end) t.

Definition posts_in (t : list action) : list (string * string) :=
  flat_map (fun a => match a with Post _ c v => [(c, v)] | _ => [] end) t.

(** The messages shown in a trace, in order. *)
Definition shown_in (t : list action) : list event :=
  flat_map (fun a => match a with
                     | Host (Exec _ _) => []
                     | Host e => [e]
                     | _ => []
                     end) t.

(* ===================================================================== *)
(** ** Lines that a text can be split into                                *)
(* ===================================================================== *)

(** Whether the string holds no LF. *)
Definition no_lf (l : jsstring) : bool := forallb (fun c => negb (is_lf c)) l.

(** Whether the lines can be told apart once joined by LF: there is a
    line, no line holds an LF, and no line but the last ends in a CR. *)
Fixpoint separable (ls : list jsstring) : bool :=
  match ls with
  | [] => false
  | l :: rest =>
      match rest with
      | [] => no_lf l
      | _ :: _ => no_lf l && negb (ends_with_cr l) && separable rest
      end
  end.

(** Whether the code unit is the first, or the second, half of a
    surrogate pair. *)
Definition is_high_surrogate (c : N) : bool := ((55296 <=? c) && (c <=? 56319))%N.
Definition is_low_surrogate (c : N) : bool := ((56320 <=? c) && (c <=? 57343))%N.

(** s.isWellFormed(): every surrogate stands in a pair.  This is the text
    that comes back as it is from its UTF-8 encoding, the one in which the
    files are written and read; a surrogate outside a pair is written as
    U+FFFD. *)
Fixpoint isWellFormed (s : jsstring) : bool :=
  match s with
  | [] => true
  | c :: rest =>
      if is_high_surrogate c then
        match rest with
        | d :: rest' => is_low_surrogate d && isWellFormed rest'
        | [] => false
        end
      else negb (is_low_surrogate c) && isWellFormed rest
  end.

(* ===================================================================== *)
(** ** How a page ends the listing of the tags                            *)
(* ===================================================================== *)

(** The error that a response makes the listing throw, if it does: the
    rejection of [fetch], that of [res.json()], or what the read of a name
    throws on an element of the array. *)
Definition thrown_by (r : response) : option exn :=
  match r with
  | Rejected => Some FetchError
  | NotJson => Some SyntaxError
  | Parsed (JArray items) =>
      match map_names items with
      | Throw e => Some e
      | Ok _ => None
      end
  | Parsed _ => None
  end.

(** The response ends the listing normally: it is the empty array or no
    array. *)
Definition is_last_page (r : response) : bool :=
  match r with
  | Parsed (JArray []) => true
  | Parsed (JArray (_ :: _)) => false
  | Parsed _ => true
  | _ => false
  end.

(** A remote end that answers every request with the same page of tags. *)
Definition same_page_forever (i : nat) : response :=
  Parsed (JArray [tag_object "v2.16.1" "5bc9d26"]).

(** A page of tags, then a page with a null in it. *)
Definition null_on_page_two (i : nat) : response :=
  match i with
  | 0%nat => Parsed (JArray [tag_object "v2.16.1" "5bc9d26"])
  | _ => Parsed (JArray [tag_object "v2.15.0" "6887368"; JNull])
  end.

(** Follows the helper down each of its paths. *)
Ltac checkout_paths :=
  repeat first
    [ progress run_checkout
    | match goal with
      | |- context [match exec_outcomes ?h ?n with _ => _ end] =>
          destruct (exec_outcomes h n) eqn:?
      | |- context [if mentions_dubious_ownership ?m then _ else _] =>
          destruct (mentions_dubious_ownership m) eqn:?
      | |- context [if strict_eq ?a ?b then _ else _] =>
          destruct (strict_eq a b) eqn:?
      end ].


(** Every call succeeds. *)
Definition all_ok (i : nat) : exec_outcome := ExecOk.

(** A workspace in which git works. *)
Definition host_plain : host :=
  {| workspaceFolder := Some "/ws"; exec_outcomes := all_ok; warning_answer := None |}.

(** No folder is open. *)
Definition host_no_folder : host :=
  {| workspaceFolder := None; exec_outcomes := all_ok; warning_answer := None |}.

(* ===================================================================== *)
(** ** Worlds and sessions to run the commands in                         *)
(* ===================================================================== *)

(** The texts of the runtime for the errors it makes. *)
Definition node_text (e : exn) : string :=
  match e with
  | IOError path => "Error: ENOENT: no such file or directory, open '" +:+ path +:+ "'"
  | TypeError => "TypeError: Cannot read properties of undefined (reading '0')"
  | RangeError => "RangeError: Invalid count value: -1"
  | _ => exn_to_string e
  end.

(** Joins a folder and a relative path of plain segments. *)
Definition join_posix (folder path : string) : string := folder +:+ "/" +:+ path.

(** A patch text of one line that ends in a character outside the basic
    plane, which is a pair of surrogates. *)
Definition pair_patch : jsstring := lit "// " ++ [55357%N; 56832%N].

(** Twenty lines, each indented by two spaces. *)
Definition twenty_lines : jsstring := join NL (replicate 20 (lit "  int y;")).

(** A world with a token stored and two files in the workspace. *)
Definition world_ready : world :=
  {| globalState := {[ TOKEN_KEY := "ghp_token" ]};
     files := {[ "/ws/src/a.cc" := five_lines;
                 "/ws/tensorflow/cc/tools/freeze_saved_model_test.cc" := twenty_lines ]};
     trace := [] |}.

(** A world in which no token was ever stored. *)
Definition world_fresh : world :=
  {| globalState := ∅; files := {[ "/ws/src/a.cc" := five_lines ]}; trace := [] |}.

(** src/a.cc as it is at the tag v2.15.0: three lines, the second indented
    by two spaces. *)
Definition a_cc_at_tag : jsstring :=
  lit "int a;" ++ [LF] ++ lit "  int b;" ++ [LF] ++ lit "int c;".

(** What git does to the files: the fetch (call 0) notes what it fetched,
    the checkout (call 1) puts src/a.cc of the tag in the working tree, and
    a later call writes nothing. *)
Definition checks_out_v2_15 (i : nat) (d : disk) : disk :=
  match i with
  | 0%nat => <["/ws/.git/FETCH_HEAD" := lit "6887368 tag 'v2.15.0'"]> d
  | 1%nat => <["/ws/src/a.cc" := a_cc_at_tag]> d
  | _ => d
  end.

(** The files of [world_ready] with the tag checked out. *)
Definition files_at_tag : disk :=
  {[ "/ws/.git/FETCH_HEAD" := lit "6887368 tag 'v2.15.0'";
     "/ws/src/a.cc" := a_cc_at_tag;
     "/ws/tensorflow/cc/tools/freeze_saved_model_test.cc" := twenty_lines ]}.

Definition api_patch : json :=
  JObject [("filePath", JString "src/a.cc");
           ("startLine", JNumber "2");
           ("endLine", JNumber "3");
           ("patch", JString ("if (b) {" +:+ newline +:+ "}"))].

(** Data without the shape of the interface is refused by [joinPath]. *)
Definition refused (data : json) (d : disk) : untyped_outcome * disk :=
  (UntypedFailed "undefined"
     "TypeError: The path argument must be of type string. Received undefined", d).

(** Everything works: the user types a token and a commit, picks a tag,
    git checks it out and the patch service answers. *)
Definition session_ok : session :=
  {| git := host_plain;
     git_writes := checks_out_v2_15;
     token_input := Some "ghp_token";
     commit_input := Some "5bc9d26";
     tag_pages := three_pages;
     tag_choice := fun _ => Some "v2.15.0";
     patch_api := fun _ _ => AxiosOk api_patch;
     test_patch_answer := None;
     untyped_apply := refused |}.

(** The patch service is down and the user takes the test patch. *)
Definition session_fallback : session :=
  {| git := host_plain;
     git_writes := checks_out_v2_15;
     token_input := None;
     commit_input := Some "5bc9d26";
     tag_pages := three_pages;
     tag_choice := fun _ => Some "v2.15.0";
     patch_api := fun _ _ => AxiosError (Some 502%nat) "Bad Gateway";
     test_patch_answer := Some "Use Test Patch";
     untyped_apply := refused |}.

(** The patch service is down and the user cancels. *)
Definition session_cancel : session :=
  {| git := host_plain;
     git_writes := checks_out_v2_15;
     token_input := Some EmptyString;
     commit_input := Some "5bc9d26";
     tag_pages := three_pages;
     tag_choice := fun _ => Some "v2.15.0";
     patch_api := fun _ _ => OtherFailure (JsError "socket hang up");
     test_patch_answer := Some "Cancel";
     untyped_apply := refused |}.

(** Git fails on the checkout, with a text that is not about ownership;
    the fetch before it has written what it fetched. *)
Definition session_git_fails : session :=
  {| git := {| workspaceFolder := Some "/ws";
               exec_outcomes := checkout_fails "error: pathspec 'v2.15.0' did not match";
               warning_answer := None |};
     git_writes := fun i d =>
       match i with
       | 0%nat => checks_out_v2_15 0 d
       | _ => d
       end;
     token_input := None;
     commit_input := Some "5bc9d26";
     tag_pages := three_pages;
     tag_choice := fun _ => Some "v2.15.0";
     patch_api := fun _ _ => AxiosOk api_patch;
     test_patch_answer := None;
     untyped_apply := refused |}.

(** The second page of tags has a null in it. *)
Definition session_bad_page : session :=
  {| git := host_plain;
     git_writes := checks_out_v2_15;
     token_input := None;
     commit_input := Some "5bc9d26";
     tag_pages := null_on_page_two;
     tag_choice := fun _ => Some "v2.15.0";
     patch_api := fun _ _ => AxiosOk api_patch;
     test_patch_answer := None;
     untyped_apply := refused |}.

(** The patch service answers 200 with the body null. *)
Definition session_null : session :=
  {| git := host_plain;
     git_writes := checks_out_v2_15;
     token_input := None;
     commit_input := Some "5bc9d26";
     tag_pages := three_pages;
     tag_choice := fun _ => Some "v2.15.0";
     patch_api := fun _ _ => AxiosOk JNull;
     test_patch_answer := None;
     untyped_apply := refused |}.

(** What the listing of [three_pages] returns, and the requests it sends. *)
Definition listed_tags : list jsvalue :=
  [Some (JString "v2.16.1"); Some (JString "v2.16.0"); Some (JString "v2.15.1");
   Some (JString "v2.15.0"); Some (JString "v2.14.1")].

Definition listed_requests : list request :=
  List.map (tags_request "ghp_token") [1%nat; 2%nat; 3%nat; 4%nat].

(* ===================================================================== *)
(** * Properties                                                          *)
(* ===================================================================== *)

(** ** Splitting and joining                                              *)

Lemma is_lf_true c : is_lf c = true <-> c = LF.
Proof. unfold is_lf. apply N.eqb_eq. Qed.

Lemma is_lf_false c : is_lf c = false <-> c <> LF.
Proof. unfold is_lf. apply N.eqb_neq. Qed.

Lemma is_cr_true c : is_cr c = true <-> c = CR.
Proof. unfold is_cr. apply N.eqb_eq. Qed.

(** One step of [split], in terms of the split of the rest alone: an LF
    closes a piece, a CR in front of an LF is swallowed by the match that
    the LF ends, any other character joins the first piece of the rest. *)
Lemma split_cons c s :
  split (c :: s) =
    if is_lf c then [] :: split s
    else if is_cr c && starts_with_lf s then split s
    else push_front c (split s).
Proof.
  cbn [split]. destruct (is_lf c); [reflexivity|].
  destruct s as [|d s']; cbn [starts_with_lf].
  - rewrite andb_false_r. reflexivity.
  - destruct (is_cr c && is_lf d) eqn:E; [|reflexivity].
    apply andb_true_iff in E as [_ Hd].
    cbn [split]. rewrite Hd. reflexivity.
Qed.

Lemma push_front_not_nil c ps : push_front c ps <> [].
Proof. destruct ps; discriminate. Qed.

Lemma split_not_nil s : split s <> [].
Proof.
  induction s as [|c s IH]; [discriminate|].
  rewrite split_cons.
  destruct (is_lf c); [discriminate|].
  destruct (is_cr c && starts_with_lf s); [assumption|apply push_front_not_nil].
Qed.

Lemma split_length_pos s : (0 < length (split s))%nat.
Proof. pose proof (split_not_nil s). destruct (split s); [congruence|simpl; lia]. Qed.

Lemma join_cons sep p ps :
  ps <> [] -> join sep (p :: ps) = p ++ sep ++ join sep ps.
Proof. destruct ps; [congruence|reflexivity]. Qed.

Lemma join_push_front sep c ps :
  ps <> [] -> join sep (push_front c ps) = c :: join sep ps.
Proof.
  destruct ps as [|p ps]; [congruence|intros _].
  cbn [push_front]. destruct ps; reflexivity.
Qed.

(** A text without CR LF pairs is the join of its lines. *)
Lemma join_split s : has_crlf s = false -> join NL (split s) = s.
Proof.
  induction s as [|c s IH]; [reflexivity|].
  intros H. rewrite split_cons.
  assert (Hs : has_crlf s = false /\ is_cr c && starts_with_lf s = false).
  { cbn [has_crlf] in H. destruct s as [|d s']; [split; [reflexivity|apply andb_false_r]|].
    apply orb_false_iff in H as [H1 H2]. split; assumption. }
  destruct Hs as [Hs Hc]. rewrite Hc.
  destruct (is_lf c) eqn:El.
  - apply is_lf_true in El. subst c.
    rewrite join_cons by apply split_not_nil. rewrite IH by assumption. reflexivity.
  - rewrite join_push_front by apply split_not_nil. rewrite IH by assumption. reflexivity.
Qed.

Lemma push_front_no_lf c ps :
  c <> LF -> Forall (fun l : jsstring => LF ∉ l) ps ->
  Forall (fun l : jsstring => LF ∉ l) (push_front c ps).
Proof.
  intros Hc Hps. destruct ps as [|p ps]; cbn [push_front].
  - constructor; [|constructor]. intros Hin. apply list_elem_of_singleton in Hin. congruence.
  - inversion Hps; subst. constructor; [|assumption].
    intros Hin. apply elem_of_cons in Hin as [?|?]; [congruence|contradiction].
Qed.

(** No line of a split holds an LF. *)
Lemma split_no_lf s : Forall (fun l : jsstring => LF ∉ l) (split s).
Proof.
  induction s as [|c s IH].
  - constructor; [|constructor]. apply not_elem_of_nil.
  - rewrite split_cons. destruct (is_lf c) eqn:El.
    + constructor; [apply not_elem_of_nil|assumption].
    + destruct (is_cr c && starts_with_lf s); [assumption|].
      apply push_front_no_lf; [|assumption]. apply is_lf_false. assumption.
Qed.

(** A text without LF is one line. *)
Lemma split_single s : LF ∉ s -> split s = [s].
Proof.
  induction s as [|c s IH]; [reflexivity|].
  intros H. apply not_elem_of_cons in H as [Hc Hs].
  rewrite split_cons.
  assert (El : is_lf c = false) by (apply is_lf_false; congruence).
  rewrite El.
  assert (Es : starts_with_lf s = false).
  { destruct s as [|d s']; [reflexivity|]. cbn [starts_with_lf].
    apply is_lf_false. intros ->. apply Hs. left. }
  rewrite Es, andb_false_r. rewrite IH by assumption. reflexivity.
Qed.

(** A final LF adds one empty line at the end: the text that ends in a
    newline has one line more than the text before that newline. *)
Lemma split_trailing_newline s :
  length (split (s ++ [LF])) = S (length (split s)) /\ last (split (s ++ [LF])) = Some [].
Proof.
  induction s as [|c s [IHlen IHlast]]; [split; reflexivity|].
  change ((c :: s) ++ [LF]) with (c :: (s ++ [LF])).
  rewrite !split_cons.
  destruct (is_lf c).
  - cbn [length]. rewrite IHlen. split; [reflexivity|].
    pose proof (split_not_nil (s ++ [LF])) as Hn.
    destruct (split (s ++ [LF])); [congruence|]. exact IHlast.
  - destruct s as [|d s'].
    + cbn [app starts_with_lf]. change (is_lf LF) with true.
      rewrite andb_true_r, andb_false_r.
      destruct (is_cr c); split; reflexivity.
    + change (starts_with_lf ((d :: s') ++ [LF])) with (starts_with_lf (d :: s')).
      destruct (is_cr c && starts_with_lf (d :: s')).
      * split; assumption.
      * pose proof (split_not_nil ((d :: s') ++ [LF])) as Hn1.
        pose proof (split_not_nil (d :: s')) as Hn2.
        destruct (split ((d :: s') ++ [LF])) as [|p ps]; [congruence|].
        destruct (split (d :: s')) as [|q qs]; [congruence|].
        cbn [push_front]. split; [exact IHlen|].
        destruct ps; [discriminate|exact IHlast].
Qed.

(** ** Leading white space and the indent                                 *)

Lemma leading_ws_trimStart line : line = leading_ws line ++ trimStart line.
Proof.
  induction line as [|c s IH]; [reflexivity|].
  cbn [leading_ws trimStart]. destruct (is_whitespace c); [|reflexivity].
  cbn [app]. f_equal. exact IH.
Qed.

Lemma leading_ws_whitespace line : forallb is_whitespace (leading_ws line) = true.
Proof.
  induction line as [|c s IH]; [reflexivity|].
  cbn [leading_ws]. destruct (is_whitespace c) eqn:E; [|reflexivity].
  cbn [forallb]. rewrite E, IH. reflexivity.
Qed.

Lemma trimStart_starts line : starts_with_whitespace (trimStart line) = false.
Proof.
  induction line as [|c s IH]; [reflexivity|].
  cbn [trimStart]. destruct (is_whitespace c) eqn:E; [exact IH|].
  cbn [starts_with_whitespace]. exact E.
Qed.

(** The run of white space in front of a line is determined by the line:
    however the line is cut into a run of white space and a rest that
    begins with none, the run is what [trimStart] removes and the rest is
    what it leaves. *)
Lemma leading_run_unique W rest :
  forallb is_whitespace W = true -> starts_with_whitespace rest = false ->
  leading_ws (W ++ rest) = W /\ trimStart (W ++ rest) = rest.
Proof.
  intros HW Hrest. induction W as [|c W IH].
  - destruct rest as [|r rest']; [split; reflexivity|].
    cbn [starts_with_whitespace] in Hrest.
    cbn [app leading_ws trimStart]. rewrite Hrest. split; reflexivity.
  - cbn [forallb] in HW. apply andb_true_iff in HW as [Hc HW].
    destruct (IH HW) as [IH1 IH2].
    cbn [app leading_ws trimStart]. rewrite Hc, IH1, IH2. split; reflexivity.
Qed.

Lemma concat_replicate_singleton {A} (n : nat) (x : A) :
  List.concat (replicate n [x]) = replicate n x.
Proof. induction n as [|n IH]; [reflexivity|]. cbn. rewrite IH. reflexivity. Qed.

(** The indent is made of spaces, as many as the line has characters of
    leading white space. *)
Lemma indent_of_spaces line :
  indent_of line = Ok (replicate (length (leading_ws line)) SPACE).
Proof.
  unfold indent_of, JS.repeat, len.
  assert (H : Z.of_nat (length line) - Z.of_nat (length (trimStart line))
              = Z.of_nat (length (leading_ws line))).
  { rewrite (leading_ws_trimStart line) at 1. rewrite length_app. lia. }
  rewrite H.
  destruct (Z.ltb_spec (Z.of_nat (length (leading_ws line))) 0) as [Hlt|_]; [lia|].
  rewrite Nat2Z.id. f_equal. apply concat_replicate_singleton.
Qed.

Lemma replicate_all_eq {A} (x : A) (l : list A) :
  Forall (fun y => y = x) l -> replicate (length l) x = l.
Proof.
  induction 1 as [|y l Hy _ IH]; [reflexivity|].
  cbn. rewrite IH, Hy. reflexivity.
Qed.

(** ** The slices of a checked range                                      *)

Lemma slice_before {A} (arr : list A) (k : Z) :
  0 <= k <= Z.of_nat (length arr) ->
  slice arr 0 (Some k) = take (Z.to_nat k) arr.
Proof.
  intros Hk. unfold slice, clamp_index.
  destruct (Z.ltb_spec k 0) as [?|_]; [lia|].
  change (0 <? 0) with false. cbv iota.
  rewrite Z.min_l by lia. rewrite Z.min_l by lia.
  change (Z.to_nat 0) with 0%nat. rewrite drop_0.
  rewrite Z.sub_0_r. reflexivity.
Qed.

Lemma slice_after {A} (arr : list A) (e : Z) :
  0 <= e <= Z.of_nat (length arr) ->
  slice arr e None = drop (Z.to_nat e) arr.
Proof.
  intros He. unfold slice, clamp_index.
  destruct (Z.ltb_spec e 0) as [?|_]; [lia|].
  rewrite Z.min_l by lia.
  apply take_ge. rewrite length_drop. lia.
Qed.

Lemma index_in_range {A} (arr : list A) (i : Z) :
  0 <= i < Z.of_nat (length arr) ->
  exists x, arr !! Z.to_nat i = Some x /\ index arr i = Ok x.
Proof.
  intros Hi. unfold index.
  destruct (Z.ltb_spec i 0) as [?|_]; [lia|].
  destruct (lookup_lt_is_Some_2 arr (Z.to_nat i)) as [x Hx]; [lia|].
  exists x. rewrite Hx. split; reflexivity.
Qed.

(** ** What a run of the patcher does                                     *)

(** The three checks of the range, as one condition. *)
Lemma range_check_false (s e n : Z) :
  1 <= s <= e /\ e <= n ->
  (s <=? 0) || (e >? n) || (s >? e) = false.
Proof.
  intros H. rewrite !orb_false_iff. repeat split.
  - apply Z.leb_gt. lia.
  - rewrite Z.gtb_ltb. apply Z.ltb_ge. lia.
  - rewrite Z.gtb_ltb. apply Z.ltb_ge. lia.
Qed.

Lemma range_check_true (s e n : Z) :
  s <= 0 \/ e > n \/ s > e ->
  (s <=? 0) || (e >? n) || (s >? e) = true.
Proof.
  intros H. rewrite !orb_true_iff.
  destruct H as [H|[H|H]].
  - left. left. apply Z.leb_le. lia.
  - left. right. rewrite Z.gtb_ltb. apply Z.ltb_lt. lia.
  - right. rewrite Z.gtb_ltb. apply Z.ltb_lt. lia.
Qed.

(** On a range that passes the checks the patcher returns, and the file
    holds the lines before the range, the indented patch and the lines
    after the range, joined by LF. *)
Lemma modify_in_range (d : disk) absPath raw s e patch :
  d !! absPath = Some raw ->
  1 <= s <= e /\ e <= Z.of_nat (length (split raw)) ->
  exists line,
    split raw !! Z.to_nat (s - 1) = Some line /\
    modifyFileWithPatch absPath s e patch d =
      (Ok tt,
       <[absPath :=
           join NL (take (Z.to_nat (s - 1)) (split raw)
                    ++ [indentedPatch (replicate (length (leading_ws line)) SPACE) patch]
                    ++ drop (Z.to_nat e) (split raw))]> d).
Proof.
  intros Hraw Hrange.
  destruct (index_in_range (split raw) (s - 1)) as [line [Hline Hidx]]; [lia|].
  exists line. split; [exact Hline|].
  unfold modifyFileWithPatch, bind, readFile. rewrite Hraw.
  rewrite range_check_false by exact Hrange.
  unfold lift. rewrite Hidx, indent_of_spaces.
  unfold writeFile, updated.
  rewrite slice_before by lia. rewrite slice_after by lia. reflexivity.
Qed.

(** ** The patcher: range validation                                      *)

(** C1.  Range validation.  For a file with the text [raw], whose number of
    lines [n] is the length of [split raw] (the split of the source, so a
    text that ends in a newline counts one more, empty, line: see
    [split_trailing_newline]): when [startLine <= 0], or [endLine > n], or
    [startLine > endLine], the patcher throws the "Invalid line range" error
    and the disk is what it was, the file included. *)
Theorem invalid_range_no_write (d : disk) absPath raw startLine endLine patch :
  d !! absPath = Some raw ->
  startLine <= 0 \/ endLine > Z.of_nat (length (split raw)) \/ startLine > endLine ->
  modifyFileWithPatch absPath startLine endLine patch d = (Throw InvalidRange, d).
Proof.
  intros Hraw Hbad.
  unfold modifyFileWithPatch, bind, readFile. rewrite Hraw.
  rewrite range_check_true by exact Hbad. reflexivity.
Qed.

(** ** The patcher: the splice                                            *)

(** C2.  Splice correctness.  On a file of lines [L1..Ln] and a range
    [1 <= s <= e <= n] the patcher returns, and the text it writes is the
    join by a single LF of a list of pieces that holds [L1..L(s-1)] at the
    positions [0..s-2], the indented patch as the one element at position
    [s-1], and [L(e+1)..Ln] behind it: [n - (e - s + 1) + 1] pieces in all.
    With [s = e] one line gives way to the block. *)
Theorem splice_correct (d : disk) absPath raw s e patch :
  d !! absPath = Some raw ->
  1 <= s <= e /\ e <= Z.of_nat (length (split raw)) ->
  exists line indent pieces,
    split raw !! Z.to_nat (s - 1) = Some line /\
    indent_of line = Ok indent /\
    modifyFileWithPatch absPath s e patch d = (Ok tt, <[absPath := join NL pieces]> d) /\
    pieces = take (Z.to_nat (s - 1)) (split raw)
               ++ [indentedPatch indent patch] ++ drop (Z.to_nat e) (split raw) /\
    length pieces = (Z.to_nat (s - 1) + 1 + (length (split raw) - Z.to_nat e))%nat /\
    (forall i, (i < Z.to_nat (s - 1))%nat -> pieces !! i = split raw !! i) /\
    pieces !! Z.to_nat (s - 1) = Some (indentedPatch indent patch) /\
    (forall j, pieces !! (Z.to_nat s + j)%nat = split raw !! (Z.to_nat e + j)%nat).
Proof.
  intros Hraw Hrange.
  destruct (modify_in_range d absPath raw s e patch Hraw Hrange) as [line [Hline Hrun]].
  set (lines := split raw) in *.
  set (indent := replicate (length (leading_ws line)) SPACE) in *.
  exists line, indent, (take (Z.to_nat (s - 1)) lines ++ [indentedPatch indent patch]
                          ++ drop (Z.to_nat e) lines).
  assert (Htake : length (take (Z.to_nat (s - 1)) lines) = Z.to_nat (s - 1)).
  { rewrite length_take. lia. }
  split; [exact Hline|].
  split; [apply indent_of_spaces|].
  split; [exact Hrun|].
  split; [reflexivity|].
  split; [rewrite !length_app, Htake, length_drop; cbn [length]; lia|].
  split; [|split].
  - intros i Hi. rewrite lookup_app_l by lia. apply lookup_take_lt. exact Hi.
  - rewrite lookup_app_r by lia. rewrite Htake, Nat.sub_diag. reflexivity.
  - intros j. rewrite lookup_app_r by lia. rewrite Htake.
    replace (Z.to_nat s + j - Z.to_nat (s - 1))%nat with (S j) by lia.
    cbn [app lookup list_lookup]. apply lookup_drop.
Qed.

(** ** The patcher: indentation                                           *)

(** C9.  The indent is spaces only.  Cut the line at [startLine] into its
    run [W] of leading white space and a rest that begins with none: the
    prefix that the patcher puts in front of every line of the patch is
    [length W] spaces, whatever the characters of [W] are (tabs become
    spaces). *)
Theorem indent_is_spaces (d : disk) absPath raw s e patch line W rest :
  d !! absPath = Some raw ->
  1 <= s <= e /\ e <= Z.of_nat (length (split raw)) ->
  split raw !! Z.to_nat (s - 1) = Some line ->
  line = W ++ rest ->
  forallb is_whitespace W = true ->
  starts_with_whitespace rest = false ->
  indent_of line = Ok (replicate (length W) SPACE) /\
  modifyFileWithPatch absPath s e patch d =
    (Ok tt,
     <[absPath :=
         join NL (take (Z.to_nat (s - 1)) (split raw)
                  ++ [join NL (List.map (fun l => replicate (length W) SPACE ++ l) (split patch))]
                  ++ drop (Z.to_nat e) (split raw))]> d).
Proof.
  intros Hraw Hrange Hline Hcut HW Hrest.
  destruct (leading_run_unique W rest HW Hrest) as [Hlead _].
  rewrite <- Hcut in Hlead.
  destruct (modify_in_range d absPath raw s e patch Hraw Hrange) as [line' [Hline' Hrun]].
  rewrite Hline in Hline'. injection Hline' as <-.
  rewrite Hlead in Hrun.
  split; [rewrite indent_of_spaces, Hlead; reflexivity|exact Hrun].
Qed.

Lemma all_spaces_whitespace W :
  forallb (N.eqb SPACE) W = true ->
  forallb is_whitespace W = true /\ replicate (length W) SPACE = W.
Proof.
  induction W as [|c W IH]; [split; reflexivity|].
  cbn [forallb]. intros H. apply andb_true_iff in H as [Hc HW].
  apply N.eqb_eq in Hc. subst c. destruct (IH HW) as [IH1 IH2].
  split; [rewrite IH1; reflexivity|cbn; rewrite IH2; reflexivity].
Qed.

(** C3, as amended.  Indentation propagation, for an indentation of
    spaces.  When the run [W] of leading white space of the line at
    [startLine] is made of spaces only, the patcher puts exactly [W] in front
    of every line of the patch text, the empty lines included. *)
Theorem indentation_propagates_spaces (d : disk) absPath raw s e patch line W rest :
  d !! absPath = Some raw ->
  1 <= s <= e /\ e <= Z.of_nat (length (split raw)) ->
  split raw !! Z.to_nat (s - 1) = Some line ->
  line = W ++ rest ->
  forallb (N.eqb SPACE) W = true ->
  starts_with_whitespace rest = false ->
  modifyFileWithPatch absPath s e patch d =
    (Ok tt,
     <[absPath :=
         join NL (take (Z.to_nat (s - 1)) (split raw)
                  ++ [join NL (List.map (fun l => W ++ l) (split patch))]
                  ++ drop (Z.to_nat e) (split raw))]> d).
Proof.
  intros Hraw Hrange Hline Hcut HW Hrest.
  destruct (all_spaces_whitespace W HW) as [Hws Hrep].
  destruct (leading_run_unique W rest Hws Hrest) as [Hlead _].
  rewrite <- Hcut in Hlead.
  destruct (modify_in_range d absPath raw s e patch Hraw Hrange) as [line' [Hline' Hrun]].
  rewrite Hline in Hline'. injection Hline' as <-.
  rewrite Hlead, Hrep in Hrun. exact Hrun.
Qed.

(** ** The patcher: one line replaced by itself                           *)

Lemma not_elem_of_app_r {A} (x : A) (l1 l2 : list A) : x ∉ l1 ++ l2 -> x ∉ l2.
Proof. intros H Hin. apply H. apply elem_of_app. right. exact Hin. Qed.

(** C4, as amended.  Single-line round trip.  In a file without CR LF
    pairs, take a line [k] whose leading white space [W] is spaces only, and
    patch the range [k..k] with the line stripped of [W]: the patcher returns
    and the disk is what it was, so the file has its original text. *)
Theorem single_line_round_trip (d : disk) absPath raw k line W rest :
  d !! absPath = Some raw ->
  has_crlf raw = false ->
  1 <= k ->
  split raw !! Z.to_nat (k - 1) = Some line ->
  line = W ++ rest ->
  forallb (N.eqb SPACE) W = true ->
  starts_with_whitespace rest = false ->
  modifyFileWithPatch absPath k k rest d = (Ok tt, d).
Proof.
  intros Hraw Hcrlf Hk Hline Hcut HW Hrest.
  assert (Hlen : (Z.to_nat (k - 1) < length (split raw))%nat).
  { apply lookup_lt_is_Some. eexists. exact Hline. }
  destruct (all_spaces_whitespace W HW) as [Hws Hrep].
  destruct (leading_run_unique W rest Hws Hrest) as [Hlead _].
  rewrite <- Hcut in Hlead.
  destruct (modify_in_range d absPath raw k k rest Hraw) as [line' [Hline' Hrun]]; [lia|].
  rewrite Hline in Hline'. injection Hline' as <-.
  rewrite Hlead, Hrep in Hrun. rewrite Hrun. unfold indentedPatch.
  assert (Hnolf : LF ∉ rest).
  { pose proof (split_no_lf raw) as Hall.
    rewrite Forall_forall in Hall.
    apply (not_elem_of_app_r LF W rest). rewrite <- Hcut.
    apply Hall. apply list_elem_of_lookup. eexists. exact Hline. }
  rewrite (split_single rest Hnolf). cbn [List.map join].
  rewrite <- Hcut.
  replace (Z.to_nat k) with (S (Z.to_nat (k - 1))) by lia.
  change ([line] ++ drop (S (Z.to_nat (k - 1))) (split raw))
    with (line :: drop (S (Z.to_nat (k - 1))) (split raw)).
  rewrite (take_drop_middle _ _ _ Hline).
  rewrite (join_split raw Hcrlf).
  rewrite (insert_id d absPath raw Hraw). reflexivity.
Qed.

(** ** The patcher: a patch of white space                                *)

Lemma replicate_space_no_lf n : LF ∉ replicate n SPACE.
Proof.
  intros Hin. apply elem_of_replicate in Hin as [Heq _]. discriminate Heq.
Qed.

Lemma replicate_space_whitespace n : forallb is_whitespace (replicate n SPACE) = true.
Proof. induction n as [|n IH]; [reflexivity|]. cbn [replicate forallb]. rewrite IH. reflexivity. Qed.

Lemma leading_ws_nil line :
  leading_ws line = [] <-> starts_with_whitespace line = false.
Proof.
  destruct line as [|c s]; [split; reflexivity|].
  cbn [leading_ws starts_with_whitespace].
  destruct (is_whitespace c); split; intros H; try reflexivity; discriminate H.
Qed.

(** C6, as amended.  A patch text of white space without a newline in it
    (the empty text included) is indented and spliced like any other: in
    place of the range stands one line, the indent followed by the patch
    text, which is white space throughout.  For the empty patch text that
    line is the indent itself; it is the empty line exactly when, besides,
    the line at [startLine] begins with no white space. *)
Theorem whitespace_patch_line (d : disk) absPath raw s e patch line :
  d !! absPath = Some raw ->
  1 <= s <= e /\ e <= Z.of_nat (length (split raw)) ->
  split raw !! Z.to_nat (s - 1) = Some line ->
  LF ∉ patch ->
  forallb is_whitespace patch = true ->
  let indent := replicate (length (leading_ws line)) SPACE in
  modifyFileWithPatch absPath s e patch d =
    (Ok tt,
     <[absPath :=
         join NL (take (Z.to_nat (s - 1)) (split raw)
                  ++ [indent ++ patch] ++ drop (Z.to_nat e) (split raw))]> d) /\
  (LF ∉ indent ++ patch) /\
  forallb is_whitespace (indent ++ patch) = true /\
  (patch = [] -> indent ++ patch = indent) /\
  (indent ++ patch = [] <-> patch = [] /\ starts_with_whitespace line = false).
Proof.
  intros Hraw Hrange Hline Hnolf Hws indent.
  destruct (modify_in_range d absPath raw s e patch Hraw Hrange) as [line' [Hline' Hrun]].
  rewrite Hline in Hline'. injection Hline' as <-.
  split; [|split; [|split; [|split]]].
  - rewrite Hrun. unfold indentedPatch. rewrite (split_single patch Hnolf). reflexivity.
  - intros Hin. apply elem_of_app in Hin as [Hin|Hin]; [|contradiction].
    exact (replicate_space_no_lf _ Hin).
  - rewrite forallb_app. unfold indent. rewrite replicate_space_whitespace, Hws. reflexivity.
  - intros ->. apply app_nil_r.
  - rewrite <- leading_ws_nil. split.
    + intros H. apply app_eq_nil in H as [Hi Hp]. split; [exact Hp|].
      unfold indent in Hi. destruct (leading_ws line); [reflexivity|discriminate Hi].
    + intros [-> Hl]. unfold indent. rewrite Hl. reflexivity.
Qed.

(** ** The patcher: line endings of the text written                      *)

Lemma join_app sep (a b : list jsstring) :
  a <> [] -> b <> [] -> join sep (a ++ b) = join sep a ++ sep ++ join sep b.
Proof.
  intros Ha Hb. induction a as [|p a IH]; [congruence|].
  destruct a as [|q a].
  - cbn [app]. rewrite join_cons by exact Hb. reflexivity.
  - change ((p :: q :: a) ++ b) with (p :: ((q :: a) ++ b)).
    rewrite join_cons by discriminate. rewrite IH by discriminate.
    rewrite (join_cons sep p (q :: a)) by discriminate.
    rewrite <- !app_assoc. reflexivity.
Qed.

(** A joined block that stands as one piece among others reads like its
    lines standing there. *)
Lemma join_flatten sep (a m b : list jsstring) :
  m <> [] -> join sep (a ++ [join sep m] ++ b) = join sep (a ++ m ++ b).
Proof.
  intros Hm.
  assert (Hmid : join sep ([join sep m] ++ b) = join sep (m ++ b)).
  { destruct b as [|q b].
    - rewrite !app_nil_r. reflexivity.
    - rewrite (join_app sep m (q :: b)) by (assumption || discriminate).
      cbn [app]. rewrite join_cons by discriminate. reflexivity. }
  destruct a as [|p a]; [exact Hmid|].
  rewrite (join_app sep (p :: a) ([join sep m] ++ b)) by discriminate.
  rewrite (join_app sep (p :: a) (m ++ b)); [|discriminate|].
  - rewrite Hmid. reflexivity.
  - destruct m; [congruence|discriminate].
Qed.




Lemma last_replicate_S {A} (n : nat) (x : A) : last (replicate (S n) x) = Some x.
Proof.
  induction n as [|n IH]; [reflexivity|].
  change (replicate (S (S n)) x) with (x :: replicate (S n) x).
  cbn [replicate] in *. rewrite last_cons_cons. exact IH.
Qed.

Lemma ends_with_cr_indented n l :
  ends_with_cr l = false -> ends_with_cr (replicate n SPACE ++ l) = false.
Proof.
  intros H. unfold ends_with_cr in *.
  destruct l as [|c l'].
  - rewrite app_nil_r. destruct n as [|n]; [reflexivity|].
    rewrite last_replicate_S. reflexivity.
  - rewrite last_app. destruct (last (c :: l')) eqn:E; [exact H|].
    apply last_None in E. discriminate E.
Qed.


(** ** The tag listing                                                    *)

Section TagsProperties.

Variable responses : nat -> response.
Variable token : string.

Lemma is_tag_page_inv r :
  is_tag_page r = true ->
  exists t rest names,
    r = Parsed (JArray (t :: rest)) /\ map_names (t :: rest) = Ok names /\ names_of r = names.
Proof.
  unfold is_tag_page, names_of. intros H.
  destruct r as [| |data]; try discriminate H.
  destruct data as [| | | |items|]; try discriminate H.
  destruct items as [|t rest]; [discriminate H|].
  destruct (map_names (t :: rest)) as [names|] eqn:E; [|discriminate H].
  exists t, rest, names. repeat split; reflexivity || assumption.
Qed.

(** The names come in the order of the elements, one for each. *)
Lemma map_names_in_order items :
  forall names,
    map_names items = Ok names ->
    length names = length items /\
    forall i t, items !! i = Some t -> exists name, get_name t = Ok name /\ names !! i = Some name.
Proof.
  induction items as [|t0 rest IH]; intros names H.
  - injection H as <-. split; [reflexivity|]. intros i t Hi. discriminate Hi.
  - cbn [map_names] in H.
    destruct (get_name t0) as [name0|] eqn:E0; [|discriminate H].
    destruct (map_names rest) as [names'|] eqn:E1; [|discriminate H].
    injection H as <-. destruct (IH names' eq_refl) as [Hlen Hnth].
    split; [cbn [length]; rewrite Hlen; reflexivity|].
    intros [|i] t Hi.
    + injection Hi as <-. exists name0. split; [exact E0|reflexivity].
    + exact (Hnth i t Hi).
Qed.

(** The loop, started at [page] with [page - 1] requests sent: over [k]
    pages of tags and then a page that is the empty array or no array,
    it sends the requests for the pages [page .. page + k] and no other,
    and returns the tags it had with the names of the [k] pages behind
    them.  [k + 1] rounds of fuel are enough. *)
Lemma fetchTags_from_stops k :
  forall fuel page tags sent data,
    page = S (length sent) ->
    (forall p, (page <= p < page + k)%nat -> is_tag_page (page_response responses p) = true) ->
    page_response responses (page + k) = Parsed data ->
    data = JArray [] \/ is_array data = false ->
    (k < fuel)%nat ->
    fetchTags_from responses fuel token page tags sent =
      Some (Ok (tags ++ flat_map (fun p => names_of (page_response responses p)) (seq page k)),
            sent ++ List.map (tags_request token) (seq page (S k))).
Proof.
  induction k as [|k IH]; intros fuel page tags sent data Hpage Htags Hstop Hdata Hfuel.
  - destruct fuel as [|fuel]; [lia|].
    rewrite Nat.add_0_r in Hstop. unfold page_response in Hstop.
    rewrite Hpage in Hstop. cbn [Nat.pred] in Hstop.
    cbn [fetchTags_from]. unfold fetch_json. rewrite Hstop.
    cbn [seq flat_map List.map]. rewrite app_nil_r.
    destruct Hdata as [->|Hdata]; [reflexivity|].
    destruct data as [| | | |items|]; try reflexivity. discriminate Hdata.
  - destruct fuel as [|fuel]; [lia|].
    destruct (is_tag_page_inv (page_response responses page)) as [t [rest [names [Hr [Hmap Hnames]]]]].
    { apply Htags. lia. }
    assert (Hresp : responses (length sent) = Parsed (JArray (t :: rest))).
    { rewrite <- Hr. unfold page_response. rewrite Hpage. reflexivity. }
    cbn [fetchTags_from]. unfold fetch_json. rewrite Hresp, Hmap.
    rewrite (IH fuel (S page) (tags ++ names) (sent ++ [tags_request token page]) data).
    + cbn [seq flat_map List.map]. rewrite Hnames.
      rewrite <- !app_assoc. reflexivity.
    + rewrite length_app. cbn [length]. lia.
    + intros p Hp. apply Htags. lia.
    + rewrite <- Hstop. f_equal. lia.
    + exact Hdata.
    + lia.
Qed.

(** C7.  Pagination stops at the empty page.  Let page [k] be the first
    page whose response is the empty array, the pages [1 .. k-1] being
    pages of tags (arrays with an element in them).  Then, with [k] rounds
    of fuel or more, [fetchTags] returns; it has sent [k] requests and no
    other (so none for page [k + 1]); the request number [p] of them, for
    [p = 1, 2, .., k], goes to the address of the tags of the repository
    with [per_page=100] and [page=p], the number [p] in decimal digits, and
    carries the token as bearer; and the result is the names of the pages
    [1 .. k-1], page by page, each page in the order of its response. *)
Theorem pagination_stops_at_empty_page (k fuel : nat) :
  (1 <= k)%nat ->
  (forall p, (1 <= p < k)%nat -> is_tag_page (page_response responses p) = true) ->
  page_response responses k = Parsed (JArray []) ->
  (k <= fuel)%nat ->
  fetchTags responses fuel token =
    Some (Ok (flat_map (fun p => names_of (page_response responses p)) (seq 1 (k - 1))),
          List.map
            (fun p =>
               {| url := "https://api.github.com/repos/tensorflow/tensorflow/tags?per_page=100&page="
                           +:+ NilZero.string_of_uint (Nat.to_uint p);
                  authorization := "Bearer " +:+ token |})
            (seq 1 k)).
Proof.
  intros Hk Htags Hempty Hfuel. unfold fetchTags.
  rewrite (fetchTags_from_stops (k - 1) fuel 1%nat [] [] (JArray [])).
  - cbn [app]. replace (S (k - 1)) with k by lia.
    unfold tags_request, TENSORFLOW_REPO, decimal. reflexivity.
  - reflexivity.
  - intros p Hp. apply Htags. lia.
  - rewrite <- Hempty. f_equal. lia.
  - left. reflexivity.
  - lia.
Qed.

(** C10.  A page that is no array ends the listing without an error.  Let
    the response for page [k] parse as a JSON value that is no array, the
    pages [1 .. k-1] being pages of tags.  Then, with [k] rounds of fuel
    or more, [fetchTags] returns normally with the names of the pages
    [1 .. k-1], and page [k] is the last page it asked for. *)
Theorem non_array_page_ends_listing (k fuel : nat) (data : json) :
  (1 <= k)%nat ->
  (forall p, (1 <= p < k)%nat -> is_tag_page (page_response responses p) = true) ->
  page_response responses k = Parsed data ->
  is_array data = false ->
  (k <= fuel)%nat ->
  fetchTags responses fuel token =
    Some (Ok (flat_map (fun p => names_of (page_response responses p)) (seq 1 (k - 1))),
          List.map (tags_request token) (seq 1 k)).
Proof.
  intros Hk Htags Hdata Hnoarray Hfuel. unfold fetchTags.
  rewrite (fetchTags_from_stops (k - 1) fuel 1%nat [] [] data).
  - cbn [app]. replace (S (k - 1)) with k by lia. reflexivity.
  - reflexivity.
  - intros p Hp. apply Htags. lia.
  - rewrite <- Hdata. f_equal. lia.
  - right. exact Hnoarray.
  - lia.
Qed.

End TagsProperties.


(** ** The checkout helper                                                *)

(** The checkout step of the command shows whatever the helper throws. *)
Lemma checkout_step_surfaces (h : host) tag log :
  checkout_step h tag log =
    match fst (checkoutTag h tag log) with
    | Ok _ => (Ok true, snd (checkoutTag h tag log))
    | Throw e => (Ok false, snd (checkoutTag h tag log) ++ [ShowError (exn_to_string e)])
    end.
Proof.
  unfold checkout_step, try_catch, bind, ret, showErrorMessage.
  destruct (checkoutTag h tag log) as [[[]|e] log']; reflexivity.
Qed.


(** ** The properties on the fixtures                                     *)

(** C1 on a file that ends in a newline: "a" and LF are two lines, so a
    range that ends at line 3 is refused and nothing is written. *)
Lemma invalid_range_no_write_witness :
  length (split newline_terminated) = 2%nat /\
  modifyFileWithPatch sample_path 1 3 (lit "x") (on_disk newline_terminated)
    = (Throw InvalidRange, on_disk newline_terminated).
Proof.
  split; [reflexivity|].
  apply (invalid_range_no_write (on_disk newline_terminated) sample_path newline_terminated).
  - reflexivity.
  - right. left. vm_compute. reflexivity.
Defined.

(** C2 on the five lines: the lines 2 and 3 give way to the block of two
    lines, indented like line 2. *)
Lemma splice_correct_witness :
  snd (modifyFileWithPatch sample_path 2 3 two_line_patch (on_disk five_lines)) !! sample_path
    = Some (lit "int a;" ++ [LF] ++ lit "    if (b) {" ++ [LF] ++ lit "    }" ++ [LF]
              ++ lit "int d;" ++ [LF] ++ lit "int e;").
Proof.
  assert (Hraw : on_disk five_lines !! sample_path = Some five_lines) by reflexivity.
  assert (Hrange : 1 <= 2 <= 3 /\ 3 <= Z.of_nat (length (split five_lines)))
    by (vm_compute; intuition discriminate).
  destruct (splice_correct (on_disk five_lines) sample_path five_lines 2 3 two_line_patch
              Hraw Hrange)
    as (line & indent & pieces & Hline & Hindent & Hrun & Hpieces & _).
  rewrite Hrun. cbn [snd]. rewrite lookup_insert_eq. f_equal.
  vm_compute in Hline. injection Hline as <-.
  vm_compute in Hindent. injection Hindent as <-.
  rewrite Hpieces. vm_compute. reflexivity.
Defined.

(** C9 on a line indented by two tabs: the patch lines get two spaces. *)
Lemma indent_is_spaces_witness :
  indent_of ([TAB; TAB] ++ lit "return x;") = Ok [SPACE; SPACE] /\
  modifyFileWithPatch sample_path 1 1 two_line_patch (on_disk tab_indented)
    = (Ok tt,
       <[sample_path := lit "  if (b) {" ++ [LF] ++ lit "  }" ++ [LF] ++ lit "}"]>
         (on_disk tab_indented)).
Proof.
  apply (indent_is_spaces (on_disk tab_indented) sample_path tab_indented 1 1 two_line_patch
           ([TAB; TAB] ++ lit "return x;") [TAB; TAB] (lit "return x;")).
  - reflexivity.
  - vm_compute. intuition discriminate.
  - reflexivity.
  - reflexivity.
  - reflexivity.
  - reflexivity.
Defined.

(** C3, as amended, on the five lines: line 2 is indented by four spaces,
    and so is every line of the patch. *)
Lemma indentation_propagates_spaces_witness :
  modifyFileWithPatch sample_path 2 3 two_line_patch (on_disk five_lines)
    = (Ok tt,
       <[sample_path :=
           lit "int a;" ++ [LF] ++ lit "    if (b) {" ++ [LF] ++ lit "    }" ++ [LF]
             ++ lit "int d;" ++ [LF] ++ lit "int e;"]> (on_disk five_lines)).
Proof.
  apply (indentation_propagates_spaces (on_disk five_lines) sample_path five_lines 2 3
           two_line_patch (lit "    int b;") (lit "    ") (lit "int b;")).
  - reflexivity.
  - vm_compute. intuition discriminate.
  - reflexivity.
  - reflexivity.
  - reflexivity.
  - reflexivity.
Defined.

(** C3 as stated fails on tabs: the first line is indented by two tabs,
    the patch has no white space in front of its lines, and the lines written
    begin with two spaces, not with the two tabs. *)
Lemma indentation_tabs_counterexample :
  split tab_indented !! 0%nat = Some ([TAB; TAB] ++ lit "return x;") /\
  snd (modifyFileWithPatch sample_path 1 1 two_line_patch (on_disk tab_indented)) !! sample_path
    = Some (lit "  if (b) {" ++ [LF] ++ lit "  }" ++ [LF] ++ lit "}") /\
  modifyFileWithPatch sample_path 1 1 two_line_patch (on_disk tab_indented)
    <> (Ok tt,
        <[sample_path :=
            join NL (take 0 (split tab_indented)
                     ++ [join NL (List.map (fun l => [TAB; TAB] ++ l) (split two_line_patch))]
                     ++ drop 1 (split tab_indented))]> (on_disk tab_indented)).
Proof.
  split; [reflexivity|]. split; [reflexivity|].
  intros H. apply (f_equal (fun r => snd r !! sample_path)) in H.
  vm_compute in H. discriminate H.
Qed.

(** C4, as amended, on the five lines: line 2 put back in its own place. *)
Lemma single_line_round_trip_witness :
  modifyFileWithPatch sample_path 2 2 (lit "int b;") (on_disk five_lines)
    = (Ok tt, on_disk five_lines).
Proof.
  apply (single_line_round_trip (on_disk five_lines) sample_path five_lines 2
           (lit "    int b;") (lit "    ") (lit "int b;")).
  - reflexivity.
  - reflexivity.
  - lia.
  - reflexivity.
  - reflexivity.
  - reflexivity.
  - reflexivity.
Defined.

(** C4 as stated fails twice over.  Line 1 of the CR LF file put back in
    its own place leaves a file with a bare LF; line 1 of the file indented
    by tabs, put back stripped of its tabs, comes out indented by spaces. *)
Lemma single_line_round_trip_counterexample :
  (split crlf_file !! 0%nat = Some (lit "a") /\
   snd (modifyFileWithPatch sample_path 1 1 (lit "a") (on_disk crlf_file)) !! sample_path
     = Some (lit "a" ++ [LF] ++ lit "b") /\
   snd (modifyFileWithPatch sample_path 1 1 (lit "a") (on_disk crlf_file)) !! sample_path
     <> Some crlf_file) /\
  (split tab_indented !! 0%nat = Some ([TAB; TAB] ++ lit "return x;") /\
   snd (modifyFileWithPatch sample_path 1 1 (lit "return x;") (on_disk tab_indented))
     !! sample_path
     = Some ([SPACE; SPACE] ++ lit "return x;" ++ [LF] ++ lit "}") /\
   snd (modifyFileWithPatch sample_path 1 1 (lit "return x;") (on_disk tab_indented))
     !! sample_path
     <> Some tab_indented).
Proof.
  split; (split; [reflexivity|]; split; [reflexivity|]);
    intros H; vm_compute in H; discriminate H.
Qed.



(** C6, as amended, on the five lines: a patch of two spaces over line 2,
    which is indented by four, leaves a line of six spaces. *)
Lemma whitespace_patch_line_witness :
  modifyFileWithPatch sample_path 2 2 (lit "  ") (on_disk five_lines)
    = (Ok tt,
       <[sample_path :=
           lit "int a;" ++ [LF] ++ lit "      " ++ [LF] ++ lit "int c;" ++ [LF]
             ++ lit "int d;" ++ [LF] ++ lit "int e;"]> (on_disk five_lines)).
Proof.
  assert (Hnolf : LF ∉ lit "  ").
  { intros Hin. vm_compute in Hin.
    repeat (apply elem_of_cons in Hin as [Hin|Hin]; [discriminate Hin|]).
    exact (not_elem_of_nil _ Hin). }
  apply (whitespace_patch_line (on_disk five_lines) sample_path five_lines 2 2 (lit "  ")
           (lit "    int b;")).
  - reflexivity.
  - vm_compute. intuition discriminate.
  - reflexivity.
  - exact Hnolf.
  - reflexivity.
Defined.

(** C6 as stated fails for the empty patch text over an indented line:
    in place of line 2 of the five lines stands a line of four spaces, not
    the empty line. *)
Lemma empty_patch_counterexample :
  split five_lines !! 1%nat = Some (lit "    int b;") /\
  snd (modifyFileWithPatch sample_path 2 2 [] (on_disk five_lines)) !! sample_path
    = Some (lit "int a;" ++ [LF] ++ lit "    " ++ [LF] ++ lit "int c;" ++ [LF]
              ++ lit "int d;" ++ [LF] ++ lit "int e;") /\
  snd (modifyFileWithPatch sample_path 2 2 [] (on_disk five_lines)) !! sample_path
    <> Some (join NL (take 1 (split five_lines) ++ [[]] ++ drop 2 (split five_lines))).
Proof.
  split; [reflexivity|]. split; [reflexivity|].
  intros H. vm_compute in H. discriminate H.
Qed.

(** C7 on three pages of tags and an empty fourth page: the names of the
    pages 1 to 3 in order, and four requests, for the pages 1, 2, 3 and 4
    in this order, none for page 5. *)
Lemma pagination_stops_at_empty_page_witness :
  fetchTags three_pages 4 "ghp_token" =
    Some (Ok [Some (JString "v2.16.1"); Some (JString "v2.16.0"); Some (JString "v2.15.1");
              Some (JString "v2.15.0"); Some (JString "v2.14.1")],
          [{| url := "https://api.github.com/repos/tensorflow/tensorflow/tags?per_page=100&page=1";
              authorization := "Bearer ghp_token" |};
           {| url := "https://api.github.com/repos/tensorflow/tensorflow/tags?per_page=100&page=2";
              authorization := "Bearer ghp_token" |};
           {| url := "https://api.github.com/repos/tensorflow/tensorflow/tags?per_page=100&page=3";
              authorization := "Bearer ghp_token" |};
           {| url := "https://api.github.com/repos/tensorflow/tensorflow/tags?per_page=100&page=4";
              authorization := "Bearer ghp_token" |}]).
Proof.
  apply (pagination_stops_at_empty_page three_pages "ghp_token" 4 4).
  - lia.
  - intros p Hp.
    assert (Hcases : p = 1%nat \/ p = 2%nat \/ p = 3%nat) by lia.
    destruct Hcases as [->|[->| ->]]; reflexivity.
  - reflexivity.
  - lia.
Defined.

(** C10 on a page of tags followed by an error document: the tags of
    page 1 are returned, and page 2 is the last page asked for. *)
Lemma non_array_page_ends_listing_witness :
  fetchTags rate_limited 5 "ghp_token" =
    Some (Ok [Some (JString "v2.16.1"); Some (JString "v2.16.0")],
          [tags_request "ghp_token" 1; tags_request "ghp_token" 2]).
Proof.
  apply (non_array_page_ends_listing rate_limited "ghp_token" 2 5
           (JObject [("message", JString "API rate limit exceeded")])).
  - lia.
  - intros p Hp. assert (p = 1%nat) as -> by lia. reflexivity.
  - reflexivity.
  - reflexivity.
  - lia.
Defined.



(* ===================================================================== *)
(** * Further properties of the code                                      *)
(* ===================================================================== *)

(** The patcher on a range that fails a check, and on a path without a
    file. *)
Lemma invalid_range_aux (d : disk) absPath raw s e text :
  d !! absPath = Some raw ->
  s <= 0 \/ e > Z.of_nat (length (split raw)) \/ s > e ->
  modifyFileWithPatch absPath s e text d = (Throw InvalidRange, d).
Proof.
  intros Hraw Hbad.
  unfold modifyFileWithPatch, bind, readFile. rewrite Hraw.
  rewrite range_check_true by exact Hbad. reflexivity.
Qed.

Lemma missing_file_aux (d : disk) absPath s e text :
  d !! absPath = None ->
  modifyFileWithPatch absPath s e text d = (Throw (IOError absPath), d).
Proof.
  intros Hnone. unfold modifyFileWithPatch, bind, readFile. rewrite Hnone. reflexivity.
Qed.

(** ** Splitting what was joined                                          *)

Lemma no_lf_spec l : no_lf l = true <-> LF ∉ l.
Proof.
  unfold no_lf. induction l as [|c l IH].
  - split; [intros _; apply not_elem_of_nil|reflexivity].
  - cbn [forallb]. rewrite andb_true_iff, IH, not_elem_of_cons, negb_true_iff, is_lf_false.
    split; intros [H1 H2]; split; congruence.
Qed.

Lemma ends_with_cr_cons c d l : ends_with_cr (c :: d :: l) = ends_with_cr (d :: l).
Proof. unfold ends_with_cr. rewrite last_cons_cons. reflexivity. Qed.

(** A line without LF that does not end in CR, and the LF behind it, are
    split off as they are. *)
Lemma split_app_lf p r :
  LF ∉ p -> ends_with_cr p = false -> split (p ++ LF :: r) = p :: split r.
Proof.
  induction p as [|c p IH]; intros Hnolf Hend.
  - cbn [app]. rewrite split_cons. reflexivity.
  - apply not_elem_of_cons in Hnolf as [Hc Hp].
    change ((c :: p) ++ LF :: r) with (c :: (p ++ LF :: r)).
    rewrite split_cons.
    assert (El : is_lf c = false) by (apply is_lf_false; congruence).
    rewrite El.
    destruct p as [|d p'].
    + cbn [app starts_with_lf]. change (is_lf LF) with true.
      unfold ends_with_cr in Hend. cbn in Hend. rewrite Hend. cbn [andb].
      rewrite split_cons. reflexivity.
    + rewrite ends_with_cr_cons in Hend.
      assert (Ed : is_lf d = false).
      { apply is_lf_false. intros ->. apply Hp. left. }
      cbn [app starts_with_lf]. rewrite Ed, andb_false_r.
      change (d :: p' ++ LF :: r) with ((d :: p') ++ LF :: r).
      rewrite (IH Hp Hend). reflexivity.
Qed.

(** A line that ends in CR loses that CR to the separator behind it. *)
Lemma split_app_crlf p r :
  LF ∉ p -> split (p ++ CR :: LF :: r) = p :: split r.
Proof.
  induction p as [|c p IH]; intros Hnolf.
  - cbn [app]. rewrite !split_cons. reflexivity.
  - apply not_elem_of_cons in Hnolf as [Hc Hp].
    change ((c :: p) ++ CR :: LF :: r) with (c :: (p ++ CR :: LF :: r)).
    rewrite split_cons.
    assert (El : is_lf c = false) by (apply is_lf_false; congruence).
    rewrite El.
    assert (Es : starts_with_lf (p ++ CR :: LF :: r) = false).
    { destruct p as [|d p']; [reflexivity|]. cbn [app starts_with_lf].
      apply is_lf_false. intros ->. apply Hp. left. }
    rewrite Es, andb_false_r, (IH Hp). reflexivity.
Qed.

Lemma ends_with_cr_snoc p : ends_with_cr p = true -> exists p0, p = p0 ++ [CR].
Proof.
  unfold ends_with_cr. destruct (last p) as [c|] eqn:E; [|discriminate].
  intros Hc. apply is_cr_true in Hc. subst c.
  apply last_Some in E. exact E.
Qed.

(** Behind a last character that is no LF, the last line is not empty:
    it ends in that character. *)
Lemma split_snoc_other s c :
  c <> LF -> exists ps p, split (s ++ [c]) = ps ++ [p ++ [c]].
Proof.
  intros Hc. induction s as [|a s (ps & p & IH)].
  - exists [], []. cbn [app]. rewrite split_cons.
    assert (El : is_lf c = false) by (apply is_lf_false; exact Hc).
    rewrite El. cbn [starts_with_lf]. rewrite andb_false_r. reflexivity.
  - change ((a :: s) ++ [c]) with (a :: (s ++ [c])). rewrite split_cons, IH.
    destruct (is_lf a).
    + exists ([] :: ps), p. reflexivity.
    + destruct (is_cr a && starts_with_lf (s ++ [c])).
      * exists ps, p. reflexivity.
      * destruct ps as [|q ps'].
        -- exists [], (a :: p). reflexivity.
        -- exists ((a :: q) :: ps'), p. reflexivity.
Qed.

(** X1.  The empty last line.  A text followed by an LF has one line more
    than the text itself; and the last line of the split of a text is empty
    exactly when the text is empty or ends in an LF. *)
Theorem trailing_newline_adds_empty_line (s : jsstring) :
  length (split (s ++ [LF])) = S (length (split s)) /\
  (last (split s) = Some [] <-> s = [] \/ last s = Some LF).
Proof.
  split; [apply split_trailing_newline|].
  split.
  - intros Hlast. destruct (last s) as [c|] eqn:Hc.
    + right. destruct (N.eq_dec c LF) as [->|Hne]; [reflexivity|exfalso].
      apply last_Some in Hc as [s0 ->].
      destruct (split_snoc_other s0 c Hne) as (ps & p & Hsplit).
      rewrite Hsplit, last_snoc in Hlast. injection Hlast as Hlast.
      destruct p; discriminate Hlast.
    + left. apply last_None. exact Hc.
  - intros [->|Hc]; [reflexivity|].
    apply last_Some in Hc as [s0 ->]. apply split_trailing_newline.
Qed.

(** Lines that are [separable] come back from the join. *)
Lemma split_join_aux (ls : list jsstring) :
  separable ls = true -> split (join NL ls) = ls.
Proof.
  induction ls as [|p ls IH]; [discriminate|].
  destruct ls as [|q ls].
  - cbn [join separable]. rewrite no_lf_spec. apply split_single.
  - change (separable (p :: q :: ls))
      with (no_lf p && negb (ends_with_cr p) && separable (q :: ls)).
    intros H. apply andb_true_iff in H as [H Hsep].
    apply andb_true_iff in H as [Hp Hend].
    apply no_lf_spec in Hp. apply negb_true_iff in Hend.
    rewrite join_cons by discriminate. unfold NL at 1. cbn [app].
    rewrite split_app_lf by assumption. f_equal. apply IH. exact Hsep.
Qed.

(** X2.  Joining and splitting again.  The split of the join by LF of a
    list of lines is that list exactly when the list is [separable]: it has
    a line, no line holds an LF, and no line but the last ends in a CR. *)
Theorem split_join_iff (ls : list jsstring) :
  split (join NL ls) = ls <-> separable ls = true.
Proof.
  induction ls as [|p ls IH].
  - split; [intros H; discriminate H|intros H; discriminate H].
  - destruct ls as [|q ls].
    + cbn [join separable]. rewrite no_lf_spec. split.
      * intros H. pose proof (split_no_lf p) as Hall. rewrite H in Hall.
        inversion Hall; assumption.
      * apply split_single.
    + rewrite join_cons by discriminate.
      change (separable (p :: q :: ls))
        with (no_lf p && negb (ends_with_cr p) && separable (q :: ls)).
      unfold NL at 1. cbn [app]. split.
      * intros H.
        assert (Hp : LF ∉ p).
        { pose proof (split_no_lf (p ++ LF :: join NL (q :: ls))) as Hall.
          rewrite H in Hall. inversion Hall; assumption. }
        destruct (ends_with_cr p) eqn:Hend.
        -- exfalso. destruct (ends_with_cr_snoc p Hend) as [p0 ->].
           rewrite <- app_assoc in H. cbn [app] in H.
           rewrite split_app_crlf in H.
           ++ injection H as Hhead _.
              apply (f_equal (@length N)) in Hhead. rewrite length_app in Hhead.
              cbn in Hhead. lia.
           ++ intros Hin. apply Hp. apply elem_of_app. left. exact Hin.
        -- rewrite split_app_lf in H by assumption. injection H as H.
           apply IH in H. rewrite H.
           apply no_lf_spec in Hp. rewrite Hp. reflexivity.
      * intros H. apply andb_true_iff in H as [H Hsep].
        apply andb_true_iff in H as [Hp Hend].
        apply no_lf_spec in Hp. apply negb_true_iff in Hend.
        rewrite split_app_lf by assumption. f_equal. apply IH. exact Hsep.
Qed.

Lemma join_split_length s :
  (length (join NL (split s)) <= length s)%nat /\
  (has_crlf s = true -> (length (join NL (split s)) < length s)%nat).
Proof.
  induction s as [|c s [IHle IHlt]]; [split; [reflexivity|discriminate]|].
  rewrite split_cons.
  assert (Hcr : has_crlf (c :: s) = (is_cr c && starts_with_lf s) || has_crlf s).
  { cbn [has_crlf]. destruct s as [|d s']; [rewrite andb_false_r|]; reflexivity. }
  rewrite Hcr. clear Hcr.
  destruct (is_lf c) eqn:El.
  - assert (Hc : is_cr c = false).
    { apply is_lf_true in El. subst c. reflexivity. }
    rewrite Hc. cbn [andb orb].
    rewrite join_cons by apply split_not_nil.
    unfold NL at 1 3. cbn [app length]. split; [lia|intros H; specialize (IHlt H); lia].
  - destruct (is_cr c && starts_with_lf s).
    + cbn [length]. split; [lia|intros _; lia].
    + rewrite join_push_front by apply split_not_nil.
      cbn [orb length]. split; [lia|intros H; specialize (IHlt H); lia].
Qed.

(** X3.  Splitting and joining again.  A text is the join by LF of its own
    lines exactly when no CR LF pair occurs in it; a text with such a pair
    comes back shorter. *)
Theorem join_split_iff (s : jsstring) :
  join NL (split s) = s <-> has_crlf s = false.
Proof.
  split; [|apply join_split].
  intros H. destruct (has_crlf s) eqn:E; [|reflexivity].
  destruct (join_split_length s) as [_ Hlt]. specialize (Hlt E).
  rewrite H in Hlt. lia.
Qed.

(** ** More on the patcher                                                *)

(** The patcher ends in one of three ways. *)
Lemma modify_cases (d : disk) absPath s e text :
  modifyFileWithPatch absPath s e text d = (Throw (IOError absPath), d) /\ d !! absPath = None
  \/ (exists raw, d !! absPath = Some raw /\
                  modifyFileWithPatch absPath s e text d = (Throw InvalidRange, d))
  \/ (exists raw written, d !! absPath = Some raw /\
         (1 <= s <= e /\ e <= Z.of_nat (length (split raw))) /\
         modifyFileWithPatch absPath s e text d = (Ok tt, <[absPath := written]> d)).
Proof.
  destruct (d !! absPath) as [raw|] eqn:Hraw.
  - right.
    destruct (Z_le_gt_dec s 0) as [H1|H1];
      [left; exists raw; split; [reflexivity|];
       apply (invalid_range_aux d absPath raw); [exact Hraw|lia]|].
    destruct (Z_le_gt_dec e (Z.of_nat (length (split raw)))) as [H2|H2];
      [|left; exists raw; split; [reflexivity|];
        apply (invalid_range_aux d absPath raw); [exact Hraw|lia]].
    destruct (Z_le_gt_dec s e) as [H3|H3];
      [|left; exists raw; split; [reflexivity|];
        apply (invalid_range_aux d absPath raw); [exact Hraw|lia]].
    right.
    destruct (modify_in_range d absPath raw s e text Hraw) as [line [_ Hrun]]; [lia|].
    exists raw. eexists. split; [reflexivity|]. split; [lia|exact Hrun].
  - left. split; [|reflexivity]. apply missing_file_aux. exact Hraw.
Qed.

Lemma dom_insert_existing (d : disk) k (v v' : jsstring) :
  d !! k = Some v -> dom (<[k := v']> d) = dom d.
Proof.
  intros Hk. rewrite dom_insert_L. apply (elem_of_dom_2 (D := gset string)) in Hk.
  apply subseteq_union_1_L. apply singleton_subseteq_l. exact Hk.
Qed.

(** X4.  The patcher keeps to its file.  Whatever the arguments and
    however it ends, the files at all other paths are what they were, and
    the set of paths that hold a file is the same: it creates no file and
    removes none. *)
Theorem patcher_keeps_to_its_file (d : disk) absPath s e text :
  delete absPath (snd (modifyFileWithPatch absPath s e text d)) = delete absPath d /\
  dom (snd (modifyFileWithPatch absPath s e text d)) = dom d.
Proof.
  destruct (modify_cases d absPath s e text)
    as [[Hrun _]|[(raw & _ & Hrun)|(raw & written & Hraw & _ & Hrun)]];
    rewrite Hrun; cbn [snd]; try (split; reflexivity).
  split.
  - apply delete_insert_eq.
  - apply (dom_insert_existing _ _ raw). exact Hraw.
Qed.

(** X5.  The range check is exact.  For line numbers that are integers:
    the patcher throws the "Invalid line range" error exactly when there is
    a file at the path and [startLine <= 0], or [endLine > n], or
    [startLine > endLine], with [n] the number of lines of the file; where
    there is no file it throws the error of the read and the disk is what it
    was; and it returns normally only on a file and a range with
    [1 <= startLine <= endLine <= n]. *)
Theorem patcher_outcome (d : disk) absPath s e text :
  (fst (modifyFileWithPatch absPath s e text d) = Throw InvalidRange <->
   exists raw, d !! absPath = Some raw /\
               (s <= 0 \/ e > Z.of_nat (length (split raw)) \/ s > e)) /\
  (d !! absPath = None ->
   modifyFileWithPatch absPath s e text d = (Throw (IOError absPath), d)) /\
  (fst (modifyFileWithPatch absPath s e text d) = Ok tt ->
   exists raw, d !! absPath = Some raw /\
               1 <= s <= e /\ e <= Z.of_nat (length (split raw))).
Proof.
  destruct (modify_cases d absPath s e text)
    as [[Hrun Hnone]|[(raw & Hraw & Hrun)|(raw & written & Hraw & Hrange & Hrun)]];
    rewrite Hrun; cbn [fst].
  - split; [|split].
    + split; [intros H; discriminate H|].
      intros (raw & Hraw & _). rewrite Hnone in Hraw. discriminate Hraw.
    + intros _. reflexivity.
    + intros H. discriminate H.
  - split; [|split].
    + split; [|intros _; reflexivity].
      intros _. exists raw. split; [exact Hraw|].
      destruct (Z_le_gt_dec s 0) as [H1|H1]; [left; exact H1|].
      destruct (Z_le_gt_dec e (Z.of_nat (length (split raw)))) as [H2|H2];
        [|right; left; exact H2].
      destruct (Z_le_gt_dec s e) as [H3|H3]; [|right; right; exact H3].
      destruct (modify_in_range d absPath raw s e text Hraw) as [line [_ Hok]]; [lia|].
      rewrite Hok in Hrun. discriminate Hrun.
    + intros Hnone. rewrite Hnone in Hraw. discriminate Hraw.
    + intros H. discriminate H.
  - split; [|split].
    + split; [intros H; discriminate H|].
      intros (raw' & Hraw' & Hbad). rewrite Hraw in Hraw'. injection Hraw' as <-. lia.
    + intros Hnone. rewrite Hnone in Hraw. discriminate Hraw.
    + intros _. exists raw. split; [exact Hraw|exact Hrange].
Qed.

Lemma separable_lines ls :
  ls <> [] ->
  Forall (fun l : jsstring => (LF ∉ l) /\ ends_with_cr l = false) ls ->
  separable ls = true.
Proof.
  intros Hne Hall. induction Hall as [|p ps [Hp Hend] _ IH]; [congruence|].
  destruct ps as [|q ps].
  - cbn [separable]. apply no_lf_spec. exact Hp.
  - change (separable (p :: q :: ps))
      with (no_lf p && negb (ends_with_cr p) && separable (q :: ps)).
    apply no_lf_spec in Hp. rewrite Hp, Hend, IH by discriminate. reflexivity.
Qed.

(** *** Text that the write keeps as it is                              *)

Lemma surrogate_no_separator c :
  is_high_surrogate c = true \/ is_low_surrogate c = true ->
  is_lf c = false /\ is_cr c = false.
Proof.
  unfold is_high_surrogate, is_low_surrogate, is_lf, is_cr, LF, CR.
  intros [H|H]; apply andb_true_iff in H as [H1 H2];
    apply N.leb_le in H1, H2; split; apply N.eqb_neq; lia.
Qed.

Lemma isWellFormed_pair c d s :
  is_high_surrogate c = true ->
  isWellFormed (c :: d :: s) = is_low_surrogate d && isWellFormed s.
Proof. intros H. cbn [isWellFormed]. rewrite H. reflexivity. Qed.

Lemma isWellFormed_single c s :
  is_high_surrogate c = false ->
  isWellFormed (c :: s) = negb (is_low_surrogate c) && isWellFormed s.
Proof. intros H. cbn [isWellFormed]. rewrite H. reflexivity. Qed.

(** A well-formed text begins with a pair or with a code unit that is no
    surrogate. *)
Lemma isWellFormed_inv c s :
  isWellFormed (c :: s) = true ->
  (is_high_surrogate c = true /\
   exists d s', s = d :: s' /\ is_low_surrogate d = true /\ isWellFormed s' = true)
  \/ (is_high_surrogate c = false /\ is_low_surrogate c = false /\ isWellFormed s = true).
Proof.
  destruct (is_high_surrogate c) eqn:Hc.
  - destruct s as [|d s']; [cbn [isWellFormed]; rewrite Hc; discriminate|].
    rewrite isWellFormed_pair by exact Hc. intros H.
    apply andb_true_iff in H as [Hd Hs].
    left. split; [reflexivity|]. exists d, s'. repeat split; assumption.
  - rewrite isWellFormed_single by exact Hc. intros H.
    apply andb_true_iff in H as [Hl Hs]. apply negb_true_iff in Hl.
    right. repeat split; assumption.
Qed.

(** Well-formed texts put one behind the other. *)
Lemma isWellFormed_app a b :
  isWellFormed a = true -> isWellFormed b = true -> isWellFormed (a ++ b) = true.
Proof.
  remember (length a) as n eqn:Hn. revert a Hn.
  induction n as [n IH] using lt_wf_ind. intros a Hn Ha Hb.
  destruct a as [|c a]; [exact Hb|].
  destruct (isWellFormed_inv c a Ha) as [(Hc & d & a' & -> & Hd & Ha')|(Hc & Hl & Ha')].
  - change ((c :: d :: a') ++ b) with (c :: d :: (a' ++ b)).
    rewrite isWellFormed_pair, Hd by exact Hc.
    apply (IH (length a')); [subst n; cbn [length]; lia|reflexivity|exact Ha'|exact Hb].
  - change ((c :: a) ++ b) with (c :: (a ++ b)).
    rewrite isWellFormed_single, Hl by exact Hc.
    apply (IH (length a)); [subst n; cbn [length]; lia|reflexivity|exact Ha'|exact Hb].
Qed.

(** The lines of a well-formed text are well formed: the split does not
    cut a pair. *)
Lemma isWellFormed_split s :
  isWellFormed s = true -> Forall (fun l : jsstring => isWellFormed l = true) (split s).
Proof.
  remember (length s) as n eqn:Hn. revert s Hn.
  induction n as [n IH] using lt_wf_ind. intros s Hn Hs.
  destruct s as [|c s]; [repeat constructor|].
  destruct (isWellFormed_inv c s Hs) as [(Hc & d & s' & -> & Hd & Hs')|(Hc & Hl & Hs')].
  - destruct (surrogate_no_separator c (or_introl Hc)) as [Hc1 Hc2].
    destruct (surrogate_no_separator d (or_intror Hd)) as [Hd1 Hd2].
    rewrite split_cons, Hc1, Hc2. cbn [andb].
    rewrite split_cons, Hd1, Hd2. cbn [andb].
    assert (Hrest : Forall (fun l : jsstring => isWellFormed l = true) (split s')).
    { apply (IH (length s')); [subst n; cbn [length]; lia|reflexivity|exact Hs']. }
    pose proof (split_not_nil s') as Hne.
    destruct (split s') as [|p ps]; [congruence|].
    cbn [push_front]. inversion Hrest as [|? ? Hp Hps]; subst.
    constructor; [|exact Hps].
    rewrite isWellFormed_pair, Hd by exact Hc. exact Hp.
  - assert (Hrest : Forall (fun l : jsstring => isWellFormed l = true) (split s)).
    { apply (IH (length s)); [subst n; cbn [length]; lia|reflexivity|exact Hs']. }
    rewrite split_cons.
    destruct (is_lf c); [constructor; [reflexivity|exact Hrest]|].
    destruct (is_cr c && starts_with_lf s); [exact Hrest|].
    pose proof (split_not_nil s) as Hne.
    destruct (split s) as [|p ps]; [congruence|].
    cbn [push_front]. inversion Hrest as [|? ? Hp Hps]; subst.
    constructor; [|exact Hps].
    rewrite isWellFormed_single, Hl by exact Hc. exact Hp.
Qed.

Lemma isWellFormed_join ls :
  Forall (fun l : jsstring => isWellFormed l = true) ls -> isWellFormed (join NL ls) = true.
Proof.
  induction 1 as [|p ps Hp Hps IH]; [reflexivity|].
  destruct ps as [|q ps]; [exact Hp|].
  rewrite join_cons by discriminate.
  apply isWellFormed_app; [exact Hp|].
  apply isWellFormed_app; [reflexivity|exact IH].
Qed.

Lemma isWellFormed_spaces n : isWellFormed (replicate n SPACE) = true.
Proof. induction n as [|n IH]; [reflexivity|]. cbn [replicate]. exact IH. Qed.

(** X6.  Reading a patched file again.  Let the patcher return normally
    on a file and a patch text that are well formed (no surrogate outside a
    pair), where none of the lines kept and none of the lines of the patch
    text ends in a CR.  Then the range was valid, the text written is well
    formed, so that the file holds it as it is, and the lines of the file
    read again are the lines before the range, the lines of the patch text
    with the indent in front of each, and the lines after the range; so the
    file has [(s - 1) + (lines of the patch text) + (n - e)] lines, and the
    lines behind the block have moved by the difference. *)
Theorem patched_file_lines (d d' : disk) absPath raw s e text :
  d !! absPath = Some raw ->
  modifyFileWithPatch absPath s e text d = (Ok tt, d') ->
  isWellFormed raw = true ->
  isWellFormed text = true ->
  Forall (fun l : jsstring => ends_with_cr l = false)
    (take (Z.to_nat (s - 1)) (split raw) ++ split text ++ drop (Z.to_nat e) (split raw)) ->
  exists line written,
    (1 <= s <= e /\ e <= Z.of_nat (length (split raw))) /\
    split raw !! Z.to_nat (s - 1) = Some line /\
    d' = <[absPath := written]> d /\
    isWellFormed written = true /\
    split written =
      take (Z.to_nat (s - 1)) (split raw)
        ++ List.map (fun l => replicate (length (leading_ws line)) SPACE ++ l) (split text)
        ++ drop (Z.to_nat e) (split raw) /\
    length (split written) =
      (Z.to_nat (s - 1) + length (split text) + (length (split raw) - Z.to_nat e))%nat.
Proof.
  intros Hraw Hok Hwf_raw Hwf_text Hends.
  assert (Hrange : 1 <= s <= e /\ e <= Z.of_nat (length (split raw))).
  { destruct (modify_cases d absPath s e text)
      as [[Hrun _]|[(raw' & _ & Hrun)|(raw' & written & Hraw' & Hrange & _)]];
      [rewrite Hrun in Hok; discriminate Hok|rewrite Hrun in Hok; discriminate Hok|].
    rewrite Hraw in Hraw'. injection Hraw' as <-. exact Hrange. }
  destruct (modify_in_range d absPath raw s e text Hraw Hrange) as [line [Hline Hrun]].
  rewrite Hrun in Hok. injection Hok as <-.
  exists line. eexists. split; [exact Hrange|]. split; [exact Hline|]. split; [reflexivity|].
  unfold indentedPatch.
  set (indented := List.map (fun l => replicate (length (leading_ws line)) SPACE ++ l)
                     (split text)).
  assert (Hmap : indented <> []).
  { subst indented. pose proof (split_not_nil text).
    destruct (split text); [congruence|discriminate]. }
  change (join NL indented :: drop (Z.to_nat e) (split raw))
    with ([join NL indented] ++ drop (Z.to_nat e) (split raw)).
  rewrite (join_flatten NL _ _ _ Hmap).
  assert (Hwf : isWellFormed (join NL (take (Z.to_nat (s - 1)) (split raw) ++ indented
                                         ++ drop (Z.to_nat e) (split raw))) = true).
  { apply isWellFormed_join.
    pose proof (isWellFormed_split raw Hwf_raw) as Hlines.
    apply Forall_app. split; [apply Forall_take; exact Hlines|].
    apply Forall_app. split; [|apply Forall_drop; exact Hlines].
    subst indented. apply Forall_map.
    eapply Forall_impl; [exact (isWellFormed_split text Hwf_text)|].
    intros l Hl. apply isWellFormed_app; [apply isWellFormed_spaces|exact Hl]. }
  assert (Hsplit : split (join NL (take (Z.to_nat (s - 1)) (split raw) ++ indented
                                     ++ drop (Z.to_nat e) (split raw)))
                   = take (Z.to_nat (s - 1)) (split raw) ++ indented
                       ++ drop (Z.to_nat e) (split raw)).
  { apply split_join_aux. apply separable_lines.
    - destruct indented; [congruence|].
      destruct (take (Z.to_nat (s - 1)) (split raw)); discriminate.
    - apply Forall_app in Hends as [Hbefore Hends].
      apply Forall_app in Hends as [Htext Hafter].
      pose proof (split_no_lf raw) as Hraw_lf.
      pose proof (split_no_lf text) as Htext_lf.
      apply Forall_app. split; [|apply Forall_app; split].
      + apply Forall_and. split; [apply Forall_take; exact Hraw_lf|exact Hbefore].
      + subst indented. apply Forall_map.
        pose proof (conj Htext_lf Htext) as Hboth. apply Forall_and in Hboth.
        eapply Forall_impl; [exact Hboth|].
        intros l [Hl1 Hl2]. split.
        * intros Hin. apply elem_of_app in Hin as [Hin|Hin]; [|contradiction].
          exact (replicate_space_no_lf _ Hin).
        * apply ends_with_cr_indented. exact Hl2.
      + apply Forall_and. split; [apply Forall_drop; exact Hraw_lf|exact Hafter]. }
  split; [exact Hwf|]. split; [exact Hsplit|].
  rewrite Hsplit. subst indented.
  rewrite !length_app, length_map, length_take, length_drop. lia.
Qed.

(** ** More on the tag listing                                            *)

Section MoreOnTags.

Variable responses : nat -> response.
Variable token : string.

(** Every response is of one kind: a page of tags, a page that ends the
    listing, or one that makes it throw. *)
Lemma response_kinds r :
  is_tag_page r = true /\ is_last_page r = false /\ thrown_by r = None
  \/ is_tag_page r = false /\ is_last_page r = true /\ thrown_by r = None
  \/ is_tag_page r = false /\ is_last_page r = false /\ exists e, thrown_by r = Some e.
Proof.
  destruct r as [| |data].
  - right. right. repeat split. eexists. reflexivity.
  - right. right. repeat split. eexists. reflexivity.
  - destruct data as [| | | |items|]; try (right; left; repeat split; reflexivity).
    destruct items as [|t rest]; [right; left; repeat split; reflexivity|].
    unfold is_tag_page, is_last_page, thrown_by.
    destruct (map_names (t :: rest)) as [names|e].
    + left. repeat split.
    + right. right. repeat split. eexists. reflexivity.
Qed.

(** One round of the loop on each kind of response. *)
Lemma fetchTags_from_step fuel page tags sent :
  fetchTags_from responses (S fuel) token page tags sent =
    let sent' := sent ++ [tags_request token page] in
    match thrown_by (responses (length sent)) with
    | Some e => Some (Throw e, sent')
    | None =>
        if is_last_page (responses (length sent)) then Some (Ok tags, sent')
        else fetchTags_from responses fuel token (S page)
               (tags ++ names_of (responses (length sent))) sent'
    end.
Proof.
  cbn [fetchTags_from]. unfold fetch_json.
  destruct (responses (length sent)) as [| |data]; try reflexivity.
  destruct data as [| | | |items|]; try reflexivity.
  destruct items as [|t rest]; [reflexivity|].
  unfold thrown_by, is_last_page, names_of.
  destruct (map_names (t :: rest)); reflexivity.
Qed.

(** The loop over [k] pages of tags: [k] rounds later it stands at page
    [page + k], with the names of the pages passed behind the tags it had
    and the requests for them sent. *)
Lemma fetchTags_from_tag_pages k :
  forall fuel page tags sent,
    page = S (length sent) ->
    (forall p, (page <= p < page + k)%nat -> is_tag_page (page_response responses p) = true) ->
    fetchTags_from responses (k + fuel) token page tags sent =
      fetchTags_from responses fuel token (page + k)
        (tags ++ flat_map (fun p => names_of (page_response responses p)) (seq page k))
        (sent ++ List.map (tags_request token) (seq page k)).
Proof.
  induction k as [|k IH]; intros fuel page tags sent Hpage Htags.
  - cbn [seq flat_map List.map Nat.add]. rewrite !app_nil_r, Nat.add_0_r. reflexivity.
  - change (S k + fuel)%nat with (S (k + fuel)). rewrite fetchTags_from_step.
    assert (Hresp : responses (length sent) = page_response responses page).
    { unfold page_response. rewrite Hpage. reflexivity. }
    rewrite Hresp.
    destruct (response_kinds (page_response responses page))
      as [(H1 & H2 & H3)|[(H1 & _)|(H1 & _)]].
    + rewrite H2, H3. cbv zeta.
      rewrite (IH fuel (S page) _ (sent ++ [tags_request token page])).
      * cbn [seq flat_map List.map]. rewrite <- !app_assoc.
        replace (S page + k)%nat with (page + S k)%nat by lia. reflexivity.
      * rewrite length_app. cbn [length]. lia.
      * intros p Hp. apply Htags. lia.
    + rewrite Htags in H1 by lia. discriminate H1.
    + rewrite Htags in H1 by lia. discriminate H1.
Qed.

(** X7.  A page that fails ends the listing with its error.  Behind
    pages of tags, let the request for page [k] be rejected, or its body be
    no JSON, or its array hold an element whose name cannot be read (a
    null): [fetchTags] throws that error, with [k] rounds of fuel or more,
    after the requests for the pages [1 .. k]; the names of the pages before
    are not returned. *)
Theorem page_failure_ends_listing (k fuel : nat) (e : exn) :
  (1 <= k)%nat ->
  (forall p, (1 <= p < k)%nat -> is_tag_page (page_response responses p) = true) ->
  thrown_by (page_response responses k) = Some e ->
  (k <= fuel)%nat ->
  fetchTags responses fuel token =
    Some (Throw e, List.map (tags_request token) (seq 1 k)).
Proof.
  intros Hk Htags Hthrown Hfuel. unfold fetchTags.
  replace fuel with ((k - 1) + S (fuel - k))%nat by lia.
  rewrite fetchTags_from_tag_pages; [|reflexivity|intros p Hp; apply Htags; lia].
  rewrite fetchTags_from_step.
  rewrite length_app, length_map, length_seq. cbn [length app Nat.add].
  replace (responses (k - 1)) with (page_response responses k)
    by (unfold page_response; f_equal; lia).
  rewrite Hthrown. cbv zeta.
  replace (1 + (k - 1))%nat with (S (k - 1)) by lia.
  replace (tags_request token (S (k - 1))) with (tags_request token (1 + (k - 1))%nat)
    by (f_equal; lia).
  change [tags_request token (1 + (k - 1))%nat]
    with (List.map (tags_request token) [(1 + (k - 1))%nat]).
  rewrite <- map_app, <- seq_S.
  replace (S (k - 1)) with k by lia. reflexivity.
Qed.

(** X8.  The loop has no bound of its own.  Against a remote end that
    answers every page with an array of tags, the listing is still going
    after any number of rounds: [fetchTags] does not return. *)
Theorem listing_never_ends (fuel : nat) :
  (forall p, (1 <= p)%nat -> is_tag_page (page_response responses p) = true) ->
  fetchTags responses fuel token = None.
Proof.
  intros Htags. unfold fetchTags.
  replace fuel with (fuel + 0)%nat by lia.
  rewrite fetchTags_from_tag_pages; [reflexivity|reflexivity|].
  intros p Hp. apply Htags. lia.
Qed.

(** What a run of the loop that ends has done. *)
Lemma fetchTags_from_ends fuel :
  forall page tags sent r sent',
    page = S (length sent) ->
    fetchTags_from responses fuel token page tags sent = Some (r, sent') ->
    exists k,
      (k < fuel)%nat /\
      sent' = sent ++ List.map (tags_request token) (seq page (S k)) /\
      (forall p, (page <= p < page + k)%nat -> is_tag_page (page_response responses p) = true) /\
      match r with
      | Ok result =>
          is_last_page (page_response responses (page + k)) = true /\
          result = tags ++ flat_map (fun p => names_of (page_response responses p)) (seq page k)
      | Throw e => thrown_by (page_response responses (page + k)) = Some e
      end.
Proof.
  induction fuel as [|fuel IH]; intros page tags sent r sent' Hpage Hrun; [discriminate Hrun|].
  rewrite fetchTags_from_step in Hrun. cbv zeta in Hrun.
  assert (Hresp : responses (length sent) = page_response responses page).
  { unfold page_response. rewrite Hpage. reflexivity. }
  rewrite Hresp in Hrun.
  destruct (response_kinds (page_response responses page))
    as [(H1 & H2 & H3)|[(H1 & H2 & H3)|(H1 & H2 & e & H3)]];
    rewrite H3 in Hrun; try rewrite H2 in Hrun.
  - apply IH in Hrun; [|rewrite length_app; cbn [length]; lia].
    destruct Hrun as (k & Hk & Hsent & Htags & Hr).
    exists (S k). split; [lia|]. split; [|split].
    + rewrite Hsent. rewrite <- app_assoc. reflexivity.
    + intros p Hp. destruct (decide (p = page)) as [->|Hne]; [exact H1|].
      apply Htags. lia.
    + replace (page + S k)%nat with (S page + k)%nat by lia.
      destruct r as [result|e]; [|exact Hr].
      destruct Hr as [Hlast Hresult]. split; [exact Hlast|].
      rewrite Hresult. cbn [seq flat_map]. rewrite <- app_assoc. reflexivity.
  - injection Hrun as <- <-. exists 0%nat. rewrite Nat.add_0_r.
    split; [lia|]. split; [reflexivity|]. split; [intros p Hp; lia|].
    split; [exact H2|]. cbn [seq flat_map]. rewrite app_nil_r. reflexivity.
  - injection Hrun as <- <-. exists 0%nat. rewrite Nat.add_0_r.
    split; [lia|]. split; [reflexivity|]. split; [intros p Hp; lia|exact H3].
Qed.

(** X9.  The pages are asked for one by one.  However [fetchTags]
    ends, the requests it has sent are, in this order and each once: for
    [p = 1, 2, ..], the request to the address of the tags of the repository
    with [per_page=100] and [page=p], the number [p] in decimal digits, with
    the token as bearer; and there are no more of them than rounds were
    run. *)
Theorem requests_are_consecutive (fuel : nat) (r : result (list jsvalue)) (sent : list request) :
  fetchTags responses fuel token = Some (r, sent) ->
  sent =
    List.map
      (fun p =>
         {| url := "https://api.github.com/repos/tensorflow/tensorflow/tags?per_page=100&page="
                     +:+ NilZero.string_of_uint (Nat.to_uint p);
            authorization := "Bearer " +:+ token |})
      (seq 1 (length sent)) /\
  (length sent <= fuel)%nat.
Proof.
  intros Hrun. unfold fetchTags in Hrun.
  apply fetchTags_from_ends in Hrun; [|reflexivity].
  destruct Hrun as (k & Hk & Hsent & _). cbn [app] in Hsent.
  assert (Hlen : length sent = S k) by (rewrite Hsent, length_map, length_seq; reflexivity).
  rewrite Hlen. split; [|lia].
  rewrite Hsent. unfold tags_request, TENSORFLOW_REPO, decimal. reflexivity.
Qed.

(** X10.  What a listing that returns has read.  When [fetchTags]
    returns normally after [k] requests, the page [k] is the empty array or
    no array, the pages before it are arrays of tags, and the result is the
    names of those pages, page by page: no name is dropped or added. *)
Theorem listing_result_is_sound (fuel : nat) (tags : list jsvalue) (sent : list request) :
  fetchTags responses fuel token = Some (Ok tags, sent) ->
  is_last_page (page_response responses (length sent)) = true /\
  (forall p, (1 <= p < length sent)%nat -> is_tag_page (page_response responses p) = true) /\
  tags = flat_map (fun p => names_of (page_response responses p)) (seq 1 (length sent - 1)).
Proof.
  intros Hrun. unfold fetchTags in Hrun.
  apply fetchTags_from_ends in Hrun; [|reflexivity].
  destruct Hrun as (k & Hk & Hsent & Htags & Hlast & Hresult). cbn [app] in Hsent, Hresult.
  assert (Hlen : length sent = S k) by (rewrite Hsent, length_map, length_seq; reflexivity).
  rewrite Hlen. replace (S k - 1)%nat with k by lia.
  split; [exact Hlast|]. split; [|exact Hresult].
  intros p Hp. apply Htags. lia.
Qed.

End MoreOnTags.

(** ** More on the checkout helper                                        *)

(** X11.  No folder, no command.  The helper throws "Open a workspace
    folder first", with nothing run and nothing shown, when there is no
    workspace folder (none, or one with an empty path), and only then; and
    these are the only runs of the helper without a command: in a workspace
    it always begins by running one. *)
Theorem no_workspace_no_command (h : host) tag :
  (checkoutTag h tag [] = (Throw (JsError "Open a workspace folder first"), [])
   <-> workspaceFolder h = None \/ workspaceFolder h = Some EmptyString) /\
  (commands (snd (checkoutTag h tag [])) = []
   <-> workspaceFolder h = None \/ workspaceFolder h = Some EmptyString).
Proof.
  unfold checkoutTag.
  destruct (workspaceFolder h) as [[|a ws']|].
  - split; (split; [intros _; right; reflexivity|intros _; reflexivity]).
  - unfold try_catch, bind, execAsync, showWarningMessage, showInformationMessage, throw.
    split; (split; [|intros [H|H]; discriminate H]).
    + checkout_paths; intros H; discriminate H.
    + checkout_paths; intros H; discriminate H.
  - split; (split; [intros _; left; reflexivity|intros _; reflexivity]).
Qed.




(** ** The token helpers                                                  *)

Lemma extend_nil w : extend [] w = w.
Proof. destruct w. unfold extend. cbn. rewrite app_nil_r. reflexivity. Qed.

Lemma extend_extend l1 l2 w : extend l2 (extend l1 w) = extend (l1 ++ l2) w.
Proof. unfold extend. cbn. rewrite app_assoc. reflexivity. Qed.

Lemma with_files_extend d l w : with_files d (extend l w) = extend l (with_files d w).
Proof. reflexivity. Qed.

Lemma files_extend l w : files (extend l w) = files w.
Proof. reflexivity. Qed.

Lemma record_action_extend a w : record_action a w = extend [a] w.
Proof. reflexivity. Qed.

(** X15.  The token after the prompt.  [setGitHubToken] always returns.
    Behind it, [getGitHubToken] gives the token the user typed when that is
    not empty, and what it gave before when the user dismissed the prompt or
    confirmed it empty; the other keys of the global state and the files are
    what they were; and "GitHub token saved." is shown exactly when a token
    was stored. *)
Theorem token_after_prompt (s : session) (w : world) :
  fst (setGitHubToken s w) = Ok tt /\
  fst (getGitHubToken (snd (setGitHubToken s w))) =
    Ok match token_input s with
       | Some (String a t) => Some (String a t)
       | _ => globalState w !! TOKEN_KEY
       end /\
  delete TOKEN_KEY (globalState (snd (setGitHubToken s w))) = delete TOKEN_KEY (globalState w) /\
  files (snd (setGitHubToken s w)) = files w /\
  trace (snd (setGitHubToken s w)) =
    trace w ++ token_prompt ::
      match token_input s with
      | Some (String _ _) => [Host (ShowInformation "GitHub token saved.")]
      | _ => []
      end.
Proof.
  unfold setGitHubToken.
  destruct (token_input s) as [[|a t]|];
    unfold bind, update_token, show, getGitHubToken, record_action; cbn;
    repeat split.
  - rewrite lookup_insert_eq. reflexivity.
  - apply delete_insert_eq.
  - rewrite <- app_assoc. reflexivity.
Qed.

(** ** The main command                                                   *)

Lemma with_files_same w : with_files (files w) w = w.
Proof. destruct w. reflexivity. Qed.

Lemma posts_in_app l1 l2 : posts_in (l1 ++ l2) = posts_in l1 ++ posts_in l2.
Proof. apply flat_map_app. Qed.

Lemma posts_in_gets sent : posts_in (List.map Get sent) = [].
Proof. induction sent as [|r sent IH]; [reflexivity|exact IH]. Qed.

Lemma posts_in_host log : posts_in (List.map Host log) = [].
Proof. induction log as [|e log IH]; [reflexivity|exact IH]. Qed.

Lemma commands_in_app l1 l2 : commands_in (l1 ++ l2) = commands_in l1 ++ commands_in l2.
Proof. apply flat_map_app. Qed.

Lemma commands_in_gets sent : commands_in (List.map Get sent) = [].
Proof. induction sent as [|r sent IH]; [reflexivity|exact IH]. Qed.

Lemma commands_in_host log : commands_in (List.map Host log) = commands log.
Proof.
  induction log as [|e log IH]; [reflexivity|].
  unfold commands_in, commands in *.
  destruct e; cbn [List.map flat_map app]; rewrite IH; reflexivity.
Qed.

(** A message is no command: it leaves the files alone. *)
Lemma after_calls_shown writes message log :
  forall i d,
    after_calls writes i (log ++ [ShowError message]) d = after_calls writes i log d.
Proof.
  induction log as [|ev log IH]; intros i d; [reflexivity|].
  destruct ev; cbn [app after_calls]; apply IH.
Qed.

(** A patcher that throws has written nothing. *)
Lemma modify_throw_unchanged (d d' : disk) absPath a b text e :
  modifyFileWithPatch absPath a b text d = (Throw e, d') -> d' = d.
Proof.
  intros Hrun.
  destruct (modify_cases d absPath a b text)
    as [[H _]|[(raw & _ & H)|(raw & written & _ & _ & H)]];
    rewrite H in Hrun; [| |discriminate Hrun]; injection Hrun as _ <-; reflexivity.
Qed.

(** Data with the shape of the interface is not null. *)
Lemma as_PatchResponse_not_null data p : as_PatchResponse data = Some p -> data <> JNull.
Proof. intros H ->. discriminate H. Qed.

Section MainCommand.

Variable s : session.
Variable joinPath : string -> string -> string.
Variable runtime_text : exn -> string.

Lemma on_host_checkout_step tag w :
  on_host (git_writes s) (checkout_step (git s) tag) w =
    let log := snd (checkoutTag (git s) tag []) in
    let w1 := with_files (git_leaves s log (files w)) w in
    match fst (checkoutTag (git s) tag []) with
    | Ok _ => (Ok true, extend (List.map Host log) w1)
    | Throw e => (Ok false, extend (List.map Host (log ++ [ShowError (exn_to_string e)])) w1)
    end.
Proof.
  unfold on_host. rewrite checkout_step_surfaces.
  destruct (fst (checkoutTag (git s) tag [])); cbv zeta; unfold git_leaves; [reflexivity|].
  rewrite after_calls_shown. reflexivity.
Qed.

(** The "call API" block: three ways to leave it. *)
Lemma call_api_run commitHash tag w :
  call_api s commitHash tag w =
    let calling := [Host (ShowInformation "Calling backport API...");
                    Post PATCH_API_URL commitHash tag] in
    match patch_api s commitHash tag with
    | AxiosOk data =>
        (Ok (Some data), extend (calling ++ [Host (ShowInformation "API call successful!")]) w)
    | _ =>
        if strict_eq (test_patch_answer s) "Use Test Patch"
        then (Ok (Some test_patch),
              extend (calling ++ [Host fallback_prompt;
                                  Host (ShowInformation "Using test patch for demonstration")]) w)
        else (Ok None, extend (calling ++ [Host fallback_prompt]) w)
    end.
Proof.
  unfold call_api, try_catch, bind, callPatchApi, show, ret, record_action, extend.
  cbn. destruct (patch_api s commitHash tag);
    [|destruct (strict_eq (test_patch_answer s) "Use Test Patch")
     |destruct (strict_eq (test_patch_answer s) "Use Test Patch")];
    cbn; rewrite <- ?app_assoc; reflexivity.
Qed.

(** The "apply patch" block on data with the shape of the interface: it
    returns, with one message. *)
Lemma apply_patch_run data p w :
  as_PatchResponse data = Some p ->
  apply_patch s joinPath runtime_text data w =
    match workspaceFolder (git s) with
    | Some ws =>
        let run := modifyFileWithPatch (joinPath ws (filePath p))
                     (startLine p) (endLine p) (patch p) (files w) in
        (Ok tt,
         extend [Host match fst run with
                      | Ok _ => ShowInformation ("Patched " +:+ filePath p)
                      | Throw e =>
                          ShowError ("Failed to patch " +:+ filePath p +:+ ": "
                                       +:+ error_string runtime_text e)
                      end]
           (with_files (snd run) w))
    | None =>
        (Ok tt,
         extend [Host (ShowError ("Failed to patch " +:+ filePath p +:+ ": "
                                    +:+ error_string runtime_text TypeError))] w)
    end.
Proof.
  intros Hshape. unfold apply_patch. rewrite Hshape.
  unfold try_catch, bind, lift, on_files, show, record_action, extend, with_files.
  destruct (workspaceFolder (git s)) as [ws|]; [|reflexivity].
  cbv zeta.
  destruct (modifyFileWithPatch (joinPath ws (filePath p)) (startLine p) (endLine p)
              (patch p) (files w)) as [[[]|e] d']; reflexivity.
Qed.

(** The ways the "apply patch" block ends: on data with the shape of the
    interface it returns, behind a patcher that failed and wrote nothing or
    behind one that returned; on null it throws at once; other data is for
    the session. *)
Lemma apply_patch_shape data w3 r w' :
  apply_patch s joinPath runtime_text data w3 = (r, w') ->
  exists tail d,
    w' = extend tail (with_files d w3) /\
    posts_in tail = [] /\ commands_in tail = [] /\
    ((exists p, as_PatchResponse data = Some p /\ r = Ok tt /\ d = files w3)
     \/ (exists ws p,
           workspaceFolder (git s) = Some ws /\ as_PatchResponse data = Some p /\ r = Ok tt /\
           modifyFileWithPatch (joinPath ws (filePath p)) (startLine p) (endLine p) (patch p)
             (files w3) = (Ok tt, d) /\
           tail = [Host (ShowInformation ("Patched " +:+ filePath p))])
     \/ (data = JNull /\ r = Throw TypeError /\ tail = [] /\ d = files w3)
     \/ (data <> JNull /\ as_PatchResponse data = None)).
Proof.
  destruct (as_PatchResponse data) as [p|] eqn:Hshape.
  - rewrite (apply_patch_run data p w3 Hshape).
    destruct (workspaceFolder (git s)) as [ws|] eqn:Hws.
    + cbv zeta.
      destruct (modifyFileWithPatch (joinPath ws (filePath p)) (startLine p) (endLine p)
                  (patch p) (files w3)) as [[[]|e] d'] eqn:Hmod;
        cbn [fst snd]; intros H; injection H as <- <-.
      * eexists. exists d'. split; [reflexivity|]. split; [reflexivity|].
        split; [reflexivity|]. right. left. exists ws, p.
        split; [reflexivity|]. split; [reflexivity|]. split; [reflexivity|].
        split; [exact Hmod|reflexivity].
      * apply modify_throw_unchanged in Hmod. subst d'.
        eexists. exists (files w3). split; [reflexivity|]. split; [reflexivity|].
        split; [reflexivity|]. left. exists p. repeat split; reflexivity.
    + intros H. injection H as <- <-.
      eexists. exists (files w3). rewrite with_files_same.
      split; [reflexivity|]. split; [reflexivity|].
      split; [reflexivity|]. left. exists p. repeat split; reflexivity.
  - unfold apply_patch. rewrite Hshape.
    assert (Huntyped : data <> JNull ->
      (let (outcome, d') := untyped_apply s data (files w3) in
       let w1 := with_files d' w3 in
       match outcome with
       | UntypedPatched path => show (ShowInformation ("Patched " +:+ path)) w1
       | UntypedFailed path error =>
           show (ShowError ("Failed to patch " +:+ path +:+ ": " +:+ error)) w1
       | UntypedThrown e => (Throw e, w1)
       end) = (r, w') ->
      exists tail d,
        w' = extend tail (with_files d w3) /\ posts_in tail = [] /\ commands_in tail = []).
    { intros Hnn.
      destruct (untyped_apply s data (files w3)) as [[path|path error|e] d'];
        cbv zeta; unfold show; intros H; injection H as <- <-.
      - exists [Host (ShowInformation ("Patched " +:+ path))], d'. repeat split; reflexivity.
      - exists [Host (ShowError ("Failed to patch " +:+ path +:+ ": " +:+ error))], d'.
        repeat split; reflexivity.
      - exists [], d'. rewrite extend_nil. repeat split; reflexivity. }
    destruct data as [|b|literal|text|items|members];
      try (intros Hrun;
           destruct (Huntyped ltac:(discriminate) Hrun) as (tail & d & H1 & H2 & H3);
           exists tail, d; split; [exact H1|]; split; [exact H2|]; split; [exact H3|];
           right; right; right; split; [discriminate|reflexivity]).
    intros H. injection H as <- <-. exists [], (files w3).
    rewrite with_files_same, extend_nil.
    split; [reflexivity|]. split; [reflexivity|]. split; [reflexivity|].
    right. right. left. repeat split; reflexivity.
Qed.

(** A normal return of the helper shows that a folder is open. *)
Lemma checkout_ok_workspace (h : host) tag :
  fst (checkoutTag h tag []) = Ok tt -> exists ws, workspaceFolder h = Some ws.
Proof.
  unfold checkoutTag. destruct (workspaceFolder h) as [[|a ws']|]; try discriminate.
  intros _. eexists. reflexivity.
Qed.

Lemma command_without_token_aux (fuel : nat) (w : world) :
  globalState w !! TOKEN_KEY = None \/ globalState w !! TOKEN_KEY = Some EmptyString ->
  backportToCommand s joinPath runtime_text fuel w =
    Some (Ok tt,
          extend [Host (ShowError "GitHub token not set. Run “Set GitHub Token…” first.")] w).
Proof.
  intros [H|H]; unfold backportToCommand; rewrite H; reflexivity.
Qed.

Lemma f_equal_Some_inv {A} (x y : A) : Some x = Some y -> x = y.
Proof. intros H. injection H as H. exact H. Qed.

Section OnceATagIsPicked.

(** The command up to the choice of the tag: a token is stored, the user
    types a commit, the listing returns the tags after the requests [sent],
    and the user picks [tag]. *)
Variable fuel : nat.
Variable w : world.
Variables token commit tag : string.
Variable tags : list jsvalue.
Variable sent : list request.

Hypothesis token_stored : globalState w !! TOKEN_KEY = Some token.
Hypothesis token_not_empty : token <> EmptyString.
Hypothesis commit_typed : commit_input s = Some commit.
Hypothesis commit_not_empty : commit <> EmptyString.
Hypothesis tags_listed : fetchTags (tag_pages s) fuel token = Some (Ok tags, sent).
Hypothesis tag_picked : tag_choice s tags = Some tag.
Hypothesis tag_not_empty : tag <> EmptyString.

(** What has been done when the checkout begins, what the helper does,
    and the files its commands leave. *)
Let before : list action :=
  [commit_prompt] ++ List.map Get sent ++ [QuickPick tags "Select the target tag"].

Let log : list event := snd (checkoutTag (git s) tag []).

Let checked_out : disk := git_leaves s log (files w).

Lemma command_from_checkout :
  backportToCommand s joinPath runtime_text fuel w =
    Some
      match fst (checkoutTag (git s) tag []) with
      | Throw e =>
          (Ok tt,
           extend (before ++ List.map Host (log ++ [ShowError (exn_to_string e)]))
             (with_files checked_out w))
      | Ok _ =>
          let w2 := extend (before ++ List.map Host log) (with_files checked_out w) in
          match call_api s commit tag w2 with
          | (Ok (Some data), w3) => apply_patch s joinPath runtime_text data w3
          | (Ok None, w3) => (Ok tt, w3)
          | (Throw e, w3) => (Throw e, w3)
          end
      end.
Proof.
  unfold backportToCommand. rewrite token_stored.
  destruct token as [|a0 token']; [congruence|].
  rewrite commit_typed. destruct commit as [|a1 commit']; [congruence|].
  rewrite tags_listed. f_equal.
  unfold backport_with_tags. rewrite tag_picked.
  destruct tag as [|a2 tag'] eqn:Htag; [congruence|].
  unfold bind. rewrite on_host_checkout_step. cbv zeta.
  change (record_action commit_prompt w) with (extend [commit_prompt] w).
  change (record_action (QuickPick tags "Select the target tag")
            (extend (List.map Get sent) (extend [commit_prompt] w)))
    with (extend [QuickPick tags "Select the target tag"]
            (extend (List.map Get sent) (extend [commit_prompt] w))).
  rewrite !extend_extend, <- ?app_assoc.
  subst checked_out log. rewrite !files_extend.
  destruct (fst (checkoutTag (git s) (String a2 tag') [])) as [[]|e].
  - cbv beta iota zeta. unfold before.
    rewrite <- ?with_files_extend, ?extend_extend, <- ?app_assoc.
    destruct (call_api s (String a1 commit') (String a2 tag') _) as [[[data|]|e] w3]; reflexivity.
  - cbv beta iota zeta. unfold before, ret.
    rewrite <- ?with_files_extend, ?extend_extend, <- ?app_assoc. reflexivity.
Qed.

(** X17.  A checkout that fails stops the command.  When the helper
    throws, the command shows the error and returns: the patch service is
    not asked and the patcher is not run, so that the files are as the git
    commands that ran have left them. *)
Theorem checkout_failure_stops_command (e : exn) :
  fst (checkoutTag (git s) tag []) = Throw e ->
  backportToCommand s joinPath runtime_text fuel w =
    Some (Ok tt,
          extend (before ++ List.map Host (snd (checkoutTag (git s) tag []))
                  ++ [Host (ShowError (exn_to_string e))])
            (with_files (git_leaves s (snd (checkoutTag (git s) tag [])) (files w)) w)).
Proof.
  intros Hfail. rewrite command_from_checkout, Hfail.
  subst log checked_out. rewrite map_app. reflexivity.
Qed.

(** X18.  The test patch declined.  When the tag is checked out, the
    request to the patch service fails in whatever way, and the user does
    not answer the offer with "Use Test Patch", the command returns behind
    the offer: the patcher is not run, and the files are as the git commands
    have left them. *)
Theorem fallback_declined :
  fst (checkoutTag (git s) tag []) = Ok tt ->
  (forall data, patch_api s commit tag <> AxiosOk data) ->
  strict_eq (test_patch_answer s) "Use Test Patch" = false ->
  backportToCommand s joinPath runtime_text fuel w =
    Some (Ok tt,
          extend (before ++ List.map Host (snd (checkoutTag (git s) tag []))
                  ++ [Host (ShowInformation "Calling backport API...");
                      Post PATCH_API_URL commit tag;
                      Host fallback_prompt])
            (with_files (git_leaves s (snd (checkoutTag (git s) tag [])) (files w)) w)).
Proof.
  intros Hok Hapi Hanswer. rewrite command_from_checkout, Hok. cbv zeta.
  rewrite call_api_run. cbv zeta. rewrite Hanswer. subst log checked_out.
  destruct (patch_api s commit tag) as [data| |]; [destruct (Hapi data); reflexivity| |];
    rewrite extend_extend, <- !app_assoc; reflexivity.
Qed.

(** X19.  The test patch accepted.  When the tag is checked out, the
    request to the patch service fails and the user answers "Use Test
    Patch", the command runs the patcher on the files as the git commands
    have left them, at the path that [joinPath] makes of the workspace
    folder and tensorflow/cc/tools/freeze_saved_model_test.cc, for the lines
    16 to 17 and with the text of the test patch, whatever the commit and
    the tag are: the files it leaves are those the patcher leaves, and the
    last message is "Patched" or "Failed to patch" as the patcher returned
    or threw. *)
Theorem fallback_accepted :
  fst (checkoutTag (git s) tag []) = Ok tt ->
  (forall data, patch_api s commit tag <> AxiosOk data) ->
  strict_eq (test_patch_answer s) "Use Test Patch" = true ->
  exists ws,
    workspaceFolder (git s) = Some ws /\
    let target := "tensorflow/cc/tools/freeze_saved_model_test.cc" in
    let run := modifyFileWithPatch (joinPath ws target) 16 17 (lit test_patch_text)
                 (git_leaves s (snd (checkoutTag (git s) tag [])) (files w)) in
    backportToCommand s joinPath runtime_text fuel w =
      Some (Ok tt,
            extend (before ++ List.map Host (snd (checkoutTag (git s) tag []))
                    ++ [Host (ShowInformation "Calling backport API...");
                        Post PATCH_API_URL commit tag;
                        Host fallback_prompt;
                        Host (ShowInformation "Using test patch for demonstration");
                        Host match fst run with
                             | Ok _ => ShowInformation ("Patched " +:+ target)
                             | Throw e =>
                                 ShowError ("Failed to patch " +:+ target +:+ ": "
                                              +:+ error_string runtime_text e)
                             end])
              (with_files (snd run) w)).
Proof.
  intros Hok Hapi Hanswer.
  destruct (checkout_ok_workspace (git s) tag Hok) as [ws Hws].
  exists ws. split; [exact Hws|]. cbv zeta.
  rewrite command_from_checkout, Hok. cbv zeta.
  rewrite call_api_run. cbv zeta. rewrite Hanswer. subst log checked_out.
  assert (Hshape : as_PatchResponse test_patch =
                   Some {| filePath := "tensorflow/cc/tools/freeze_saved_model_test.cc";
                           startLine := 16; endLine := 17; patch := lit test_patch_text |})
    by reflexivity.
  destruct (patch_api s commit tag) as [data| |]; [destruct (Hapi data); reflexivity| |];
    rewrite (apply_patch_run _ _ _ Hshape), Hws; cbv zeta;
    cbn [filePath startLine endLine patch];
    rewrite ?files_extend, ?with_files_extend, ?extend_extend, <- ?app_assoc; reflexivity.
Qed.

(** X20.  The patch of the service applied.  When the tag is checked
    out and the patch service answers with data that has the shape of its
    interface, the command runs the patcher on the files as the git commands
    have left them, at the path that [joinPath] makes of the workspace
    folder and the file path of the answer, with the range and the text of
    the answer: the files it leaves are those the patcher leaves, and the
    last message is "Patched" with the file path when the patcher returned
    and "Failed to patch" with the file path and the error when it threw. *)
Theorem service_patch_applied (data : json) (p : PatchResponse) :
  fst (checkoutTag (git s) tag []) = Ok tt ->
  patch_api s commit tag = AxiosOk data ->
  as_PatchResponse data = Some p ->
  exists ws,
    workspaceFolder (git s) = Some ws /\
    let run := modifyFileWithPatch (joinPath ws (filePath p))
                 (startLine p) (endLine p) (patch p)
                 (git_leaves s (snd (checkoutTag (git s) tag [])) (files w)) in
    backportToCommand s joinPath runtime_text fuel w =
      Some (Ok tt,
            extend (before ++ List.map Host (snd (checkoutTag (git s) tag []))
                    ++ [Host (ShowInformation "Calling backport API...");
                        Post PATCH_API_URL commit tag;
                        Host (ShowInformation "API call successful!");
                        Host match fst run with
                             | Ok _ => ShowInformation ("Patched " +:+ filePath p)
                             | Throw e =>
                                 ShowError ("Failed to patch " +:+ filePath p +:+ ": "
                                              +:+ error_string runtime_text e)
                             end])
              (with_files (snd run) w)).
Proof.
  intros Hok Hapi Hshape.
  destruct (checkout_ok_workspace (git s) tag Hok) as [ws Hws].
  exists ws. split; [exact Hws|]. cbv zeta.
  rewrite command_from_checkout, Hok. cbv zeta.
  rewrite call_api_run. cbv zeta. rewrite Hapi. subst log checked_out.
  rewrite (apply_patch_run _ _ _ Hshape), Hws. cbv zeta.
  rewrite ?files_extend, ?with_files_extend, ?extend_extend, <- ?app_assoc. reflexivity.
Qed.

(** X25.  A null answer makes the command throw.  When the tag is
    checked out and the patch service answers with the body null, the
    command shows "API call successful!" and then throws a TypeError, that
    of the read of [patch.filePath], first in the apply block and again in
    the template of its handler, where nothing catches it: the patcher is
    not run and no message tells the user of the failure. *)
Theorem null_answer_throws :
  fst (checkoutTag (git s) tag []) = Ok tt ->
  patch_api s commit tag = AxiosOk JNull ->
  backportToCommand s joinPath runtime_text fuel w =
    Some (Throw TypeError,
          extend (before ++ List.map Host (snd (checkoutTag (git s) tag []))
                  ++ [Host (ShowInformation "Calling backport API...");
                      Post PATCH_API_URL commit tag;
                      Host (ShowInformation "API call successful!")])
            (with_files (git_leaves s (snd (checkoutTag (git s) tag [])) (files w)) w)).
Proof.
  intros Hok Hapi. rewrite command_from_checkout, Hok. cbv zeta.
  rewrite call_api_run. cbv zeta. rewrite Hapi. subst log checked_out.
  unfold apply_patch, throw. cbn [as_PatchResponse string_member].
  rewrite extend_extend, <- !app_assoc. reflexivity.
Qed.

End OnceATagIsPicked.

(** The ways a run of the command can go up to the checkout: it returns
    early, without a request to the patch service and without a command;
    the listing of the tags throws; or a tag is picked. *)
Lemma command_cases (fuel : nat) (w : world) (r : result unit) (w' : world) :
  backportToCommand s joinPath runtime_text fuel w = Some (r, w') ->
  (r = Ok tt /\ exists l, w' = extend l w /\ posts_in l = [] /\ commands_in l = [])
  \/ (exists token sent e,
        globalState w !! TOKEN_KEY = Some token /\
        fetchTags (tag_pages s) fuel token = Some (Throw e, sent) /\
        r = Throw e /\ w' = extend (commit_prompt :: List.map Get sent) w)
  \/ (exists token commit tags sent tag,
        globalState w !! TOKEN_KEY = Some token /\ token <> EmptyString /\
        commit_input s = Some commit /\ commit <> EmptyString /\
        fetchTags (tag_pages s) fuel token = Some (Ok tags, sent) /\
        tag_choice s tags = Some tag /\ tag <> EmptyString).
Proof.
  intros Hrun.
  destruct (globalState w !! TOKEN_KEY) as [[|a0 token']|] eqn:Htoken.
  1,3: rewrite command_without_token_aux in Hrun by (rewrite Htoken; auto);
       injection Hrun as <- <-; left; split; [reflexivity|];
       eexists; split; [reflexivity|]; split; reflexivity.
  unfold backportToCommand in Hrun. rewrite Htoken in Hrun.
  destruct (commit_input s) as [[|a1 commit']|] eqn:Hcommit.
  1,3: injection Hrun as <- <-; left; split; [reflexivity|];
       exists [commit_prompt]; split; [reflexivity|]; split; reflexivity.
  destruct (fetchTags (tag_pages s) fuel (String a0 token')) as [[[tags|e] sent]|] eqn:Htags;
    [| |discriminate Hrun].
  2:{ injection Hrun as <- <-. right. left. exists (String a0 token'), sent, e.
      split; [reflexivity|]. split; [exact Htags|]. split; [reflexivity|].
      rewrite ?record_action_extend, ?extend_extend. reflexivity. }
  destruct (tag_choice s tags) as [[|a2 tag']|] eqn:Htag.
  1,3: unfold backport_with_tags in Hrun; rewrite Htag in Hrun;
       injection Hrun as <- <-; left; split; [reflexivity|];
       exists ([commit_prompt] ++ List.map Get sent ++ [QuickPick tags "Select the target tag"]);
       split; [rewrite ?record_action_extend, ?extend_extend, <- ?app_assoc; reflexivity|];
       rewrite !posts_in_app, !commands_in_app, posts_in_gets, commands_in_gets;
       split; reflexivity.
  right. right. exists (String a0 token'), (String a1 commit'), tags, sent, (String a2 tag').
  repeat split; try assumption; try reflexivity; discriminate.
Qed.

(** The ways a run of the command can end. *)
Lemma command_shape (fuel : nat) (w : world) (r : result unit) (w' : world) :
  backportToCommand s joinPath runtime_text fuel w = Some (r, w') ->
  exists l log d,
    w' = extend l (with_files d w) /\
    (log = [] \/ exists tag, log = snd (checkoutTag (git s) tag [])) /\
    commands_in l = commands log /\
    (d = git_leaves s log (files w)
     \/ (exists ws data p,
           workspaceFolder (git s) = Some ws /\ to_apply s data /\
           as_PatchResponse data = Some p /\
           modifyFileWithPatch (joinPath ws (filePath p)) (startLine p) (endLine p) (patch p)
             (git_leaves s log (files w)) = (Ok tt, d) /\
           last l = Some (Host (ShowInformation ("Patched " +:+ filePath p))))
     \/ untyped_answer s) /\
    (posts_in l = [] /\ (commands_in l = [] \/
                          exists tag, commands_in l = commands (snd (checkoutTag (git s) tag [])))
     \/
     exists commit tags tag,
       commit_input s = Some commit /\ tag_choice s tags = Some tag /\
       fst (checkoutTag (git s) tag []) = Ok tt /\
       commands_in l = commands (snd (checkoutTag (git s) tag [])) /\
       posts_in l = [(commit, tag)]) /\
    match r with
    | Ok _ => True
    | Throw e =>
        (exists token sent,
           globalState w !! TOKEN_KEY = Some token /\
           fetchTags (tag_pages s) fuel token = Some (Throw e, sent) /\
           l = commit_prompt :: List.map Get sent /\ d = files w)
        \/ (exists commit tags tag data,
              commit_input s = Some commit /\ tag_choice s tags = Some tag /\
              fst (checkoutTag (git s) tag []) = Ok tt /\
              patch_api s commit tag = AxiosOk data /\ as_PatchResponse data = None /\
              (data = JNull ->
               e = TypeError /\
               d = git_leaves s (snd (checkoutTag (git s) tag [])) (files w) /\
               last l = Some (Host (ShowInformation "API call successful!"))))
    end.
Proof.
  intros Hrun.
  destruct (command_cases fuel w r w' Hrun)
    as [(-> & l & -> & Hposts & Hcmds)
       |[(token & sent & e & Htoken & Htags & -> & ->)
        |(token & commit & tags & sent & tag & Htoken & Htoken_ne & Hcommit & Hcommit_ne
          & Htags & Htag & Htag_ne)]].
  - exists l, [], (files w). rewrite with_files_same.
    split; [reflexivity|]. split; [left; reflexivity|]. split; [exact Hcmds|].
    split; [left; reflexivity|]. split; [|exact I].
    left. split; [exact Hposts|left; exact Hcmds].
  - exists (commit_prompt :: List.map Get sent), [], (files w). rewrite with_files_same.
    assert (Hp : posts_in (commit_prompt :: List.map Get sent) = [])
      by (change (commit_prompt :: List.map Get sent) with ([commit_prompt] ++ List.map Get sent);
          rewrite posts_in_app, posts_in_gets; reflexivity).
    assert (Hc : commands_in (commit_prompt :: List.map Get sent) = [])
      by (change (commit_prompt :: List.map Get sent) with ([commit_prompt] ++ List.map Get sent);
          rewrite commands_in_app, commands_in_gets; reflexivity).
    split; [reflexivity|]. split; [left; reflexivity|]. split; [exact Hc|].
    split; [left; reflexivity|]. split; [left; split; [exact Hp|left; exact Hc]|].
    left. exists token, sent. repeat split; assumption || reflexivity.
  - rewrite (command_from_checkout fuel w token commit tag tags sent) in Hrun by assumption.
    cbv zeta in Hrun.
    set (before := [commit_prompt] ++ List.map Get sent
                   ++ [QuickPick tags "Select the target tag"]) in *.
    set (log := snd (checkoutTag (git s) tag [])) in *.
    set (G := git_leaves s log (files w)) in *.
    assert (Hbefore_posts : posts_in before = []).
    { subst before. rewrite !posts_in_app, posts_in_gets. reflexivity. }
    assert (Hbefore_cmds : commands_in before = []).
    { subst before. rewrite !commands_in_app, commands_in_gets. reflexivity. }
    destruct (fst (checkoutTag (git s) tag [])) as [[]|e] eqn:Hcheckout.
    2:{ injection Hrun as <- <-.
        exists (before ++ List.map Host (log ++ [ShowError (exn_to_string e)])), log, G.
        assert (Hc : commands_in (before ++ List.map Host (log ++ [ShowError (exn_to_string e)]))
                     = commands log).
        { rewrite commands_in_app, commands_in_host, Hbefore_cmds. cbn [app].
          unfold commands. rewrite flat_map_app. cbn. rewrite app_nil_r. reflexivity. }
        split; [reflexivity|]. split; [right; exists tag; reflexivity|]. split; [exact Hc|].
        split; [left; reflexivity|]. split; [|exact I].
        left. rewrite posts_in_app, posts_in_host, Hbefore_posts.
        split; [reflexivity|]. right. exists tag. exact Hc. }
    rewrite call_api_run in Hrun. cbv zeta in Hrun.
    set (calling := [Host (ShowInformation "Calling backport API...");
                     Post PATCH_API_URL commit tag]) in *.
    (* What the trace holds once the patch service has been asked. *)
    assert (Hcounted : forall tail,
      posts_in tail = [] -> commands_in tail = [] ->
      commands_in ((before ++ List.map Host log) ++ calling ++ tail) = commands log /\
      posts_in ((before ++ List.map Host log) ++ calling ++ tail) = [(commit, tag)]).
    { intros tail Hp Hc. subst calling.
      rewrite !commands_in_app, !posts_in_app, posts_in_host, commands_in_host,
        Hbefore_posts, Hbefore_cmds, Hp, Hc.
      split; [cbn; rewrite app_nil_r; reflexivity|reflexivity]. }
    (* The run from the apply block on. *)
    assert (Happlied : forall data mid,
      to_apply s data ->
      (as_PatchResponse data = None -> patch_api s commit tag = AxiosOk data) ->
      (data = JNull -> last mid = Some (Host (ShowInformation "API call successful!"))) ->
      posts_in mid = [] -> commands_in mid = [] ->
      apply_patch s joinPath runtime_text data
        (extend (calling ++ mid) (extend (before ++ List.map Host log) (with_files G w)))
        = (r, w') ->
      exists l log0 d,
        w' = extend l (with_files d w) /\
        (log0 = [] \/ exists tag0, log0 = snd (checkoutTag (git s) tag0 [])) /\
        commands_in l = commands log0 /\
        (d = git_leaves s log0 (files w)
         \/ (exists ws data p,
               workspaceFolder (git s) = Some ws /\ to_apply s data /\
               as_PatchResponse data = Some p /\
               modifyFileWithPatch (joinPath ws (filePath p)) (startLine p) (endLine p)
                 (patch p) (git_leaves s log0 (files w)) = (Ok tt, d) /\
               last l = Some (Host (ShowInformation ("Patched " +:+ filePath p))))
         \/ untyped_answer s) /\
        (posts_in l = [] /\
         (commands_in l = [] \/
          exists tag0, commands_in l = commands (snd (checkoutTag (git s) tag0 [])))
         \/
         exists commit0 tags0 tag0,
           commit_input s = Some commit0 /\ tag_choice s tags0 = Some tag0 /\
           fst (checkoutTag (git s) tag0 []) = Ok tt /\
           commands_in l = commands (snd (checkoutTag (git s) tag0 [])) /\
           posts_in l = [(commit0, tag0)]) /\
        match r with
        | Ok _ => True
        | Throw e =>
            (exists token0 sent0,
               globalState w !! TOKEN_KEY = Some token0 /\
               fetchTags (tag_pages s) fuel token0 = Some (Throw e, sent0) /\
               l = commit_prompt :: List.map Get sent0 /\ d = files w)
            \/ (exists commit0 tags0 tag0 data0,
                  commit_input s = Some commit0 /\ tag_choice s tags0 = Some tag0 /\
                  fst (checkoutTag (git s) tag0 []) = Ok tt /\
                  patch_api s commit0 tag0 = AxiosOk data0 /\
                  as_PatchResponse data0 = None /\
                  (data0 = JNull ->
                   e = TypeError /\
                   d = git_leaves s (snd (checkoutTag (git s) tag0 [])) (files w) /\
                   last l = Some (Host (ShowInformation "API call successful!"))))
        end).
    { intros data mid Hsource Hanswer Hmid Hp Hc Happly.
      destruct (apply_patch_shape data _ r w' Happly)
        as (tail & d & -> & Htail_p & Htail_c & Hkind).
      rewrite ?files_extend in Hkind. change (files (with_files G w)) with G in Hkind.
      rewrite ?with_files_extend, ?extend_extend. change (with_files d (with_files G w))
        with (with_files d w).
      destruct (Hcounted (mid ++ tail)) as [Hcmds Hposts].
      { rewrite posts_in_app, Hp, Htail_p. reflexivity. }
      { rewrite commands_in_app, Hc, Htail_c. reflexivity. }
      exists ((before ++ List.map Host log) ++ (calling ++ mid) ++ tail), log, d.
      rewrite <- (app_assoc calling mid tail).
      split; [reflexivity|]. split; [right; exists tag; reflexivity|]. split; [exact Hcmds|].
      assert (Hsent : exists commit0 tags0 tag0,
                commit_input s = Some commit0 /\ tag_choice s tags0 = Some tag0 /\
                fst (checkoutTag (git s) tag0 []) = Ok tt /\
                commands_in ((before ++ List.map Host log) ++ calling ++ mid ++ tail)
                  = commands (snd (checkoutTag (git s) tag0 [])) /\
                posts_in ((before ++ List.map Host log) ++ calling ++ mid ++ tail)
                  = [(commit0, tag0)]).
      { exists commit, tags, tag. repeat split; assumption. }
      destruct Hkind as [(p & Hshape & -> & ->)
                        |[(ws & p & Hws & Hshape & -> & Hmod & ->)
                         |[(-> & -> & -> & ->)|(Hnn & Hshape)]]].
      - split; [left; reflexivity|]. split; [right; exact Hsent|exact I].
      - split; [|split; [right; exact Hsent|exact I]].
        right. left. exists ws, data, p.
        split; [exact Hws|]. split; [exact Hsource|]. split; [exact Hshape|].
        split; [exact Hmod|].
        rewrite !app_assoc. apply last_snoc.
      - split; [left; reflexivity|]. split; [right; exact Hsent|].
        right. exists commit, tags, tag, JNull.
        split; [exact Hcommit|]. split; [exact Htag|]. split; [exact Hcheckout|].
        split; [apply Hanswer; reflexivity|]. split; [reflexivity|].
        intros _. split; [reflexivity|]. split; [reflexivity|].
        rewrite app_nil_r, !app_assoc, last_app, (Hmid eq_refl). reflexivity.
      - assert (Hapi : patch_api s commit tag = AxiosOk data) by (apply Hanswer; exact Hshape).
        split; [right; right; exists commit, tag, data; repeat split; assumption|].
        split; [right; exact Hsent|].
        destruct r as [u|e]; [exact I|].
        right. exists commit, tags, tag, data.
        split; [exact Hcommit|]. split; [exact Htag|]. split; [exact Hcheckout|].
        split; [exact Hapi|]. split; [exact Hshape|].
        intros Hnull. contradiction. }
    assert (Htest : as_PatchResponse test_patch = None -> patch_api s commit tag = AxiosOk test_patch)
      by (intros H; discriminate H).
    assert (Hdeclined :
      (Ok tt, extend (calling ++ [Host fallback_prompt])
                (extend (before ++ List.map Host log) (with_files G w))) = (r, w') ->
      exists l log0 d,
        w' = extend l (with_files d w) /\
        (log0 = [] \/ exists tag0, log0 = snd (checkoutTag (git s) tag0 [])) /\
        commands_in l = commands log0 /\
        (d = git_leaves s log0 (files w)
         \/ (exists ws data p,
               workspaceFolder (git s) = Some ws /\ to_apply s data /\
               as_PatchResponse data = Some p /\
               modifyFileWithPatch (joinPath ws (filePath p)) (startLine p) (endLine p)
                 (patch p) (git_leaves s log0 (files w)) = (Ok tt, d) /\
               last l = Some (Host (ShowInformation ("Patched " +:+ filePath p))))
         \/ untyped_answer s) /\
        (posts_in l = [] /\
         (commands_in l = [] \/
          exists tag0, commands_in l = commands (snd (checkoutTag (git s) tag0 [])))
         \/
         exists commit0 tags0 tag0,
           commit_input s = Some commit0 /\ tag_choice s tags0 = Some tag0 /\
           fst (checkoutTag (git s) tag0 []) = Ok tt /\
           commands_in l = commands (snd (checkoutTag (git s) tag0 [])) /\
           posts_in l = [(commit0, tag0)]) /\
        match r with
        | Ok _ => True
        | Throw e =>
            (exists token0 sent0,
               globalState w !! TOKEN_KEY = Some token0 /\
               fetchTags (tag_pages s) fuel token0 = Some (Throw e, sent0) /\
               l = commit_prompt :: List.map Get sent0 /\ d = files w)
            \/ (exists commit0 tags0 tag0 data0,
                  commit_input s = Some commit0 /\ tag_choice s tags0 = Some tag0 /\
                  fst (checkoutTag (git s) tag0 []) = Ok tt /\
                  patch_api s commit0 tag0 = AxiosOk data0 /\
                  as_PatchResponse data0 = None /\
                  (data0 = JNull ->
                   e = TypeError /\
                   d = git_leaves s (snd (checkoutTag (git s) tag0 [])) (files w) /\
                   last l = Some (Host (ShowInformation "API call successful!"))))
        end).
    { intros H. injection H as <- <-. rewrite extend_extend.
      destruct (Hcounted [Host fallback_prompt]) as [Hcmds Hposts]; [reflexivity|reflexivity|].
      exists ((before ++ List.map Host log) ++ calling ++ [Host fallback_prompt]), log, G.
      split; [reflexivity|]. split; [right; exists tag; reflexivity|]. split; [exact Hcmds|].
      split; [left; reflexivity|]. split; [|exact I].
      right. exists commit, tags, tag. repeat split; assumption. }
    destruct (patch_api s commit tag) as [data|status detail|e0] eqn:Hapi.
    + apply (Happlied data [Host (ShowInformation "API call successful!")]);
        [right; exists commit, tag; exact Hapi|intros _; reflexivity|intros _; reflexivity
        |reflexivity|reflexivity|exact (f_equal_Some_inv _ _ Hrun)].
    + destruct (strict_eq (test_patch_answer s) "Use Test Patch").
      * apply (Happlied test_patch
                 [Host fallback_prompt;
                  Host (ShowInformation "Using test patch for demonstration")]);
          [left; reflexivity|exact Htest|intros H; discriminate H
          |reflexivity|reflexivity|exact (f_equal_Some_inv _ _ Hrun)].
      * apply Hdeclined. exact (f_equal_Some_inv _ _ Hrun).
    + destruct (strict_eq (test_patch_answer s) "Use Test Patch").
      * apply (Happlied test_patch
                 [Host fallback_prompt;
                  Host (ShowInformation "Using test patch for demonstration")]);
          [left; reflexivity|exact Htest|intros H; discriminate H
          |reflexivity|reflexivity|exact (f_equal_Some_inv _ _ Hrun)].
      * apply Hdeclined. exact (f_equal_Some_inv _ _ Hrun).
Qed.

(** X21.  What makes the command throw.  When a run of the command ends
    in an error, one of two things has happened.  Either the listing of the
    tags threw that error: a token was stored and the commit asked for, and
    nothing was done but to send the requests of the listing, so that no
    command was run and no file written.  Or the tag was checked out and
    the patch service answered with data that has not the shape of its
    interface, null for one.  Every other failure (of the checkout, of the
    request to the patch service, of the patcher on data with that shape)
    is caught and shown. *)
Theorem command_throws_only_two_ways (fuel : nat) (w w' : world) (e : exn) :
  backportToCommand s joinPath runtime_text fuel w = Some (Throw e, w') ->
  (exists token sent,
     globalState w !! TOKEN_KEY = Some token /\
     fetchTags (tag_pages s) fuel token = Some (Throw e, sent) /\
     w' = extend (commit_prompt :: List.map Get sent) w)
  \/
  (exists commit tags tag data,
     commit_input s = Some commit /\ tag_choice s tags = Some tag /\
     fst (checkoutTag (git s) tag []) = Ok tt /\
     patch_api s commit tag = AxiosOk data /\
     as_PatchResponse data = None).
Proof.
  intros Hrun.
  destruct (command_shape fuel w (Throw e) w' Hrun)
    as (l & log & d & Hw' & _ & _ & _ & _
        & [(token & sent & Htoken & Htags & Hl & Hd)
          |(commit & tags & tag & data & Hcommit & Htag & Hok & Hapi & Hshape & _)]).
  - left. exists token, sent. split; [exact Htoken|]. split; [exact Htags|].
    rewrite Hw', Hl, Hd, with_files_same. reflexivity.
  - right. exists commit, tags, tag, data. repeat split; assumption.
Qed.



(** X24.  One call of the helper, one request to the patch service.
    In what a run of the command adds to the trace, the git commands are
    those of one call of the checkout helper, or none; and either no request
    goes to the patch service, or exactly one, with the commit the user
    typed and the tag the user picked, and only when the helper has returned
    normally for that tag. *)
Theorem patch_service_after_checkout (fuel : nat) (w w' : world) (r : result unit) :
  backportToCommand s joinPath runtime_text fuel w = Some (r, w') ->
  exists l,
    trace w' = trace w ++ l /\
    (posts_in l = [] /\
     (commands_in l = [] \/
      exists tag, commands_in l = commands (snd (checkoutTag (git s) tag [])))
     \/
     exists commit tags tag,
       commit_input s = Some commit /\ tag_choice s tags = Some tag /\
       fst (checkoutTag (git s) tag []) = Ok tt /\
       commands_in l = commands (snd (checkoutTag (git s) tag [])) /\
       posts_in l = [(commit, tag)]).
Proof.
  intros Hrun.
  destruct (command_shape fuel w r w' Hrun) as (l & log & d & Hw' & _ & _ & _ & Hposts & _).
  exists l. split; [rewrite Hw'; reflexivity|exact Hposts].
Qed.

(** From the choice of the tag on, the command only adds to the trace. *)
Lemma backport_with_tags_extends commit tags (w w' : world) (r : result unit) :
  backport_with_tags s joinPath runtime_text commit tags w = (r, w') ->
  exists l, trace w' = trace w ++ l.
Proof.
  unfold backport_with_tags.
  destruct (tag_choice s tags) as [[|a t]|];
    try (intros H; injection H as _ <-; eexists; reflexivity).
  unfold bind. rewrite on_host_checkout_step. cbv zeta.
  destruct (fst (checkoutTag (git s) (String a t) [])) as [[]|e];
    [|intros H; injection H as _ <-; eexists; cbn [trace extend record_action with_files];
      rewrite <- ?app_assoc; reflexivity].
  cbv beta iota. rewrite call_api_run. cbv zeta.
  assert (Happly : forall data w3 l3,
    trace w3 = trace w ++ l3 ->
    apply_patch s joinPath runtime_text data w3 = (r, w') -> exists l, trace w' = trace w ++ l).
  { intros data w3 l3 Hw3 Happly.
    destruct (apply_patch_shape data w3 r w' Happly) as (tail & d & -> & _).
    eexists. cbn [trace extend with_files]. rewrite Hw3, <- app_assoc. reflexivity. }
  destruct (patch_api s commit (String a t)) as [data| |];
    [|destruct (strict_eq (test_patch_answer s) "Use Test Patch")
     |destruct (strict_eq (test_patch_answer s) "Use Test Patch")];
    try (eapply Happly; cbn [trace extend record_action with_files];
         rewrite <- ?app_assoc; reflexivity);
    intros H; injection H as _ <-; eexists; cbn [trace extend record_action with_files];
    rewrite <- ?app_assoc; reflexivity.
Qed.

(** X16.  The token comes first.  A run of the command that ends went
    one of two ways.  With no token stored (or an empty one) it showed
    "GitHub token not set" and returned, and did nothing else: no prompt, no
    request, no command, no write.  With a token stored, the first thing it
    did was to ask for the commit. *)
Theorem token_comes_first (fuel : nat) (w w' : world) (r : result unit) :
  backportToCommand s joinPath runtime_text fuel w = Some (r, w') ->
  (globalState w !! TOKEN_KEY = None \/ globalState w !! TOKEN_KEY = Some EmptyString) /\
  r = Ok tt /\
  w' = extend [Host (ShowError "GitHub token not set. Run “Set GitHub Token…” first.")] w
  \/
  exists token l,
    globalState w !! TOKEN_KEY = Some token /\ token <> EmptyString /\
    trace w' = trace w ++ commit_prompt :: l.
Proof.
  intros Hrun. unfold backportToCommand in Hrun.
  destruct (globalState w !! TOKEN_KEY) as [[|a0 token']|] eqn:Htoken.
  - left. injection Hrun as <- <-. split; [right; reflexivity|]. split; reflexivity.
  - right. exists (String a0 token').
    assert (Hgoal : exists l, trace w' = trace w ++ commit_prompt :: l);
      [|destruct Hgoal as [l Hl]; exists l; split; [reflexivity|]; split;
        [discriminate|exact Hl]].
    destruct (commit_input s) as [[|a1 commit']|];
      try (injection Hrun as _ <-; exists []; reflexivity).
    destruct (fetchTags (tag_pages s) fuel (String a0 token')) as [[[tags|e] sent]|];
      [| |discriminate Hrun].
    + apply f_equal_Some_inv in Hrun. apply backport_with_tags_extends in Hrun as [l Hl].
      eexists. rewrite Hl. cbn [trace extend record_action].
      rewrite <- ?app_assoc. reflexivity.
    + injection Hrun as _ <-. eexists. cbn [trace extend record_action].
      rewrite <- ?app_assoc. reflexivity.
  - left. injection Hrun as <- <-. split; [left; reflexivity|]. split; reflexivity.
Qed.

End MainCommand.

(** ** The further properties on the fixtures                             *)

(** X6 on the five lines, with a patch text that holds a pair of
    surrogates: two lines give way to one, the text written is well formed,
    and the file read again has four lines, the second indented like the old
    second. *)
Lemma patched_file_lines_witness :
  exists written,
    modifyFileWithPatch sample_path 2 3 pair_patch (on_disk five_lines)
      = (Ok tt, <[sample_path := written]> (on_disk five_lines)) /\
    isWellFormed written = true /\
    split written = [lit "int a;"; lit "    // " ++ [55357%N; 56832%N]; lit "int d;"; lit "int e;"].
Proof.
  assert (Hraw : on_disk five_lines !! sample_path = Some five_lines) by reflexivity.
  assert (Hrun : modifyFileWithPatch sample_path 2 3 pair_patch (on_disk five_lines)
                 = (Ok tt, snd (modifyFileWithPatch sample_path 2 3 pair_patch
                                  (on_disk five_lines))))
    by reflexivity.
  assert (Hends : Forall (fun l : jsstring => ends_with_cr l = false)
                    (take (Z.to_nat (2 - 1)) (split five_lines)
                     ++ split pair_patch
                     ++ drop (Z.to_nat 3) (split five_lines))).
  { vm_compute. repeat constructor. }
  destruct (patched_file_lines (on_disk five_lines) _ sample_path five_lines 2 3
              pair_patch Hraw Hrun eq_refl eq_refl Hends)
    as (line & written & _ & Hline & Hd' & Hwf & Hsplit & _).
  exists written. split; [rewrite Hrun, Hd'; reflexivity|]. split; [exact Hwf|].
  vm_compute in Hline. injection Hline as <-.
  rewrite Hsplit. vm_compute. reflexivity.
Defined.

(** X7 on a second page with a null in it: the read of its name throws,
    and the tag of page 1 is lost. *)
Lemma page_failure_ends_listing_witness :
  fetchTags null_on_page_two 5 "ghp_token" =
    Some (Throw TypeError, [tags_request "ghp_token" 1; tags_request "ghp_token" 2]).
Proof.
  apply (page_failure_ends_listing null_on_page_two "ghp_token" 2 5 TypeError).
  - lia.
  - intros p Hp. assert (p = 1%nat) as -> by lia. reflexivity.
  - reflexivity.
  - lia.
Defined.

(** X8 on a remote end that answers every page alike. *)
Lemma listing_never_ends_witness :
  fetchTags same_page_forever 1000 "ghp_token" = None.
Proof.
  apply (listing_never_ends same_page_forever "ghp_token" 1000).
  intros p Hp. reflexivity.
Defined.

(** X9 on the three pages: four requests, for the pages 1 to 4 in this
    order. *)
Lemma requests_are_consecutive_witness :
  let sent :=
    [{| url := "https://api.github.com/repos/tensorflow/tensorflow/tags?per_page=100&page=1";
        authorization := "Bearer ghp_token" |};
     {| url := "https://api.github.com/repos/tensorflow/tensorflow/tags?per_page=100&page=2";
        authorization := "Bearer ghp_token" |};
     {| url := "https://api.github.com/repos/tensorflow/tensorflow/tags?per_page=100&page=3";
        authorization := "Bearer ghp_token" |};
     {| url := "https://api.github.com/repos/tensorflow/tensorflow/tags?per_page=100&page=4";
        authorization := "Bearer ghp_token" |}] in
  fetchTags three_pages 7 "ghp_token" = Some (Ok listed_tags, sent) /\
  (length sent <= 7)%nat.
Proof.
  cbv zeta. split; [reflexivity|].
  apply (requests_are_consecutive three_pages "ghp_token" 7 (Ok listed_tags)).
  reflexivity.
Defined.

(** X10 on the three pages: the fourth page ended the listing. *)
Lemma listing_result_is_sound_witness :
  is_last_page (page_response three_pages (length listed_requests)) = true /\
  (forall p, (1 <= p < length listed_requests)%nat ->
             is_tag_page (page_response three_pages p) = true) /\
  listed_tags =
    flat_map (fun p => names_of (page_response three_pages p))
      (seq 1 (length listed_requests - 1)).
Proof.
  apply (listing_result_is_sound three_pages "ghp_token" 7 listed_tags listed_requests).
  reflexivity.
Defined.


(** X17 where git fails on the checkout: the error is shown, the patch
    service is not asked, and the files are those the fetch has left. *)
Lemma checkout_failure_stops_command_witness :
  exists w',
    backportToCommand session_git_fails join_posix node_text 4 world_ready = Some (Ok tt, w') /\
    files w' = <["/ws/.git/FETCH_HEAD" := lit "6887368 tag 'v2.15.0'"]> (files world_ready) /\
    posts_in (trace w') = [] /\
    last (trace w') =
      Some (Host (ShowError
                    "Error: Git checkout failed: error: pathspec 'v2.15.0' did not match")).
Proof.
  assert (Htoken : globalState world_ready !! TOKEN_KEY = Some "ghp_token") by reflexivity.
  assert (Hcommit : commit_input session_git_fails = Some "5bc9d26") by reflexivity.
  assert (Htags : fetchTags (tag_pages session_git_fails) 4 "ghp_token"
                  = Some (Ok listed_tags, listed_requests)) by reflexivity.
  assert (Htag : tag_choice session_git_fails listed_tags = Some "v2.15.0") by reflexivity.
  assert (Hfail : fst (checkoutTag (git session_git_fails) "v2.15.0" [])
                  = Throw (JsError
                             "Git checkout failed: error: pathspec 'v2.15.0' did not match"))
    by reflexivity.
  pose proof (checkout_failure_stops_command session_git_fails join_posix node_text 4 world_ready
                "ghp_token" "5bc9d26" "v2.15.0" listed_tags listed_requests
                Htoken ltac:(discriminate) Hcommit ltac:(discriminate) Htags Htag
                ltac:(discriminate) _ Hfail) as Hrun.
  eexists. split; [exact Hrun|]. repeat split; reflexivity.
Defined.

(** X18 where the patch service is down and the user cancels: the files
    are those of the tag. *)
Lemma fallback_declined_witness :
  exists w',
    backportToCommand session_cancel join_posix node_text 4 world_ready = Some (Ok tt, w') /\
    files w' = files_at_tag /\
    last (trace w') = Some (Host fallback_prompt).
Proof.
  assert (Htoken : globalState world_ready !! TOKEN_KEY = Some "ghp_token") by reflexivity.
  assert (Hcommit : commit_input session_cancel = Some "5bc9d26") by reflexivity.
  assert (Htags : fetchTags (tag_pages session_cancel) 4 "ghp_token"
                  = Some (Ok listed_tags, listed_requests)) by reflexivity.
  assert (Htag : tag_choice session_cancel listed_tags = Some "v2.15.0") by reflexivity.
  assert (Hok : fst (checkoutTag (git session_cancel) "v2.15.0" []) = Ok tt) by reflexivity.
  assert (Hapi : forall data, patch_api session_cancel "5bc9d26" "v2.15.0" <> AxiosOk data)
    by (intros data; discriminate).
  assert (Hanswer : strict_eq (test_patch_answer session_cancel) "Use Test Patch" = false)
    by reflexivity.
  pose proof (fallback_declined session_cancel join_posix node_text 4 world_ready
                "ghp_token" "5bc9d26" "v2.15.0" listed_tags listed_requests
                Htoken ltac:(discriminate) Hcommit ltac:(discriminate) Htags Htag
                ltac:(discriminate) Hok Hapi Hanswer) as Hrun.
  eexists. split; [exact Hrun|]. split; reflexivity.
Defined.

(** X19 where the patch service is down and the user takes the test
    patch: the lines 16 and 17 of the twenty, in the files of the tag, give
    way to the five lines of the test patch, whatever the commit was. *)
Lemma fallback_accepted_witness :
  exists w',
    backportToCommand session_fallback join_posix node_text 4 world_ready = Some (Ok tt, w') /\
    files w' =
      snd (modifyFileWithPatch "/ws/tensorflow/cc/tools/freeze_saved_model_test.cc" 16 17
             (lit test_patch_text) files_at_tag) /\
    last (trace w') =
      Some (Host (ShowInformation "Patched tensorflow/cc/tools/freeze_saved_model_test.cc")).
Proof.
  assert (Htoken : globalState world_ready !! TOKEN_KEY = Some "ghp_token") by reflexivity.
  assert (Hcommit : commit_input session_fallback = Some "5bc9d26") by reflexivity.
  assert (Htags : fetchTags (tag_pages session_fallback) 4 "ghp_token"
                  = Some (Ok listed_tags, listed_requests)) by reflexivity.
  assert (Htag : tag_choice session_fallback listed_tags = Some "v2.15.0") by reflexivity.
  assert (Hok : fst (checkoutTag (git session_fallback) "v2.15.0" []) = Ok tt) by reflexivity.
  assert (Hapi : forall data, patch_api session_fallback "5bc9d26" "v2.15.0" <> AxiosOk data)
    by (intros data; discriminate).
  assert (Hanswer : strict_eq (test_patch_answer session_fallback) "Use Test Patch" = true)
    by reflexivity.
  destruct (fallback_accepted session_fallback join_posix node_text 4 world_ready
              "ghp_token" "5bc9d26" "v2.15.0" listed_tags listed_requests
              Htoken ltac:(discriminate) Hcommit ltac:(discriminate) Htags Htag
              ltac:(discriminate) Hok Hapi Hanswer) as [ws [Hws Hrun]].
  vm_compute in Hws. injection Hws as <-. cbv zeta in Hrun.
  eexists. split; [exact Hrun|]. split; reflexivity.
Defined.

(** X20 where everything works: the patch of the service goes to
    src/a.cc as the checkout has left it, three lines of which the second
    and the third give way to the two of the patch. *)
Lemma service_patch_applied_witness :
  exists w',
    backportToCommand session_ok join_posix node_text 4 world_ready = Some (Ok tt, w') /\
    files w' !! "/ws/src/a.cc" =
      Some (lit "int a;" ++ [LF] ++ lit "  if (b) {" ++ [LF] ++ lit "  }") /\
    last (trace w') = Some (Host (ShowInformation "Patched src/a.cc")).
Proof.
  assert (Htoken : globalState world_ready !! TOKEN_KEY = Some "ghp_token") by reflexivity.
  assert (Hcommit : commit_input session_ok = Some "5bc9d26") by reflexivity.
  assert (Htags : fetchTags (tag_pages session_ok) 4 "ghp_token"
                  = Some (Ok listed_tags, listed_requests)) by reflexivity.
  assert (Htag : tag_choice session_ok listed_tags = Some "v2.15.0") by reflexivity.
  assert (Hok : fst (checkoutTag (git session_ok) "v2.15.0" []) = Ok tt) by reflexivity.
  assert (Hapi : patch_api session_ok "5bc9d26" "v2.15.0" = AxiosOk api_patch) by reflexivity.
  assert (Hshape : as_PatchResponse api_patch =
                   Some {| filePath := "src/a.cc"; startLine := 2; endLine := 3;
                           patch := two_line_patch |}) by reflexivity.
  destruct (service_patch_applied session_ok join_posix node_text 4 world_ready
              "ghp_token" "5bc9d26" "v2.15.0" listed_tags listed_requests
              Htoken ltac:(discriminate) Hcommit ltac:(discriminate) Htags Htag
              ltac:(discriminate) api_patch _ Hok Hapi Hshape) as [ws [Hws Hrun]].
  vm_compute in Hws. injection Hws as <-. cbv zeta in Hrun.
  eexists. split; [exact Hrun|]. split; reflexivity.
Defined.

(** X25 where the patch service answers with null: the command throws
    behind "API call successful!", with the files of the tag. *)
Lemma null_answer_throws_witness :
  exists w',
    backportToCommand session_null join_posix node_text 4 world_ready
      = Some (Throw TypeError, w') /\
    files w' = files_at_tag /\
    last (trace w') = Some (Host (ShowInformation "API call successful!")).
Proof.
  assert (Htoken : globalState world_ready !! TOKEN_KEY = Some "ghp_token") by reflexivity.
  assert (Hcommit : commit_input session_null = Some "5bc9d26") by reflexivity.
  assert (Htags : fetchTags (tag_pages session_null) 4 "ghp_token"
                  = Some (Ok listed_tags, listed_requests)) by reflexivity.
  assert (Htag : tag_choice session_null listed_tags = Some "v2.15.0") by reflexivity.
  assert (Hok : fst (checkoutTag (git session_null) "v2.15.0" []) = Ok tt) by reflexivity.
  assert (Hapi : patch_api session_null "5bc9d26" "v2.15.0" = AxiosOk JNull) by reflexivity.
  pose proof (null_answer_throws session_null join_posix node_text 4 world_ready
                "ghp_token" "5bc9d26" "v2.15.0" listed_tags listed_requests
                Htoken ltac:(discriminate) Hcommit ltac:(discriminate) Htags Htag
                ltac:(discriminate) Hok Hapi) as Hrun.
  eexists. split; [exact Hrun|]. split; reflexivity.
Defined.

(** X21 where the second page of tags has a null in it: the error of the
    listing comes out of the command. *)
Lemma command_throws_only_two_ways_witness :
  (exists token sent,
     globalState world_ready !! TOKEN_KEY = Some token /\
     fetchTags (tag_pages session_bad_page) 4 token = Some (Throw TypeError, sent) /\
     extend (commit_prompt :: List.map Get [tags_request "ghp_token" 1; tags_request "ghp_token" 2])
       world_ready
     = extend (commit_prompt :: List.map Get sent) world_ready)
  \/
  (exists commit tags tag data,
     commit_input session_bad_page = Some commit /\ tag_choice session_bad_page tags = Some tag /\
     fst (checkoutTag (git session_bad_page) tag []) = Ok tt /\
     patch_api session_bad_page commit tag = AxiosOk data /\
     as_PatchResponse data = None).
Proof.
  apply (command_throws_only_two_ways session_bad_page join_posix node_text 4 world_ready
           (extend (commit_prompt
                    :: List.map Get [tags_request "ghp_token" 1; tags_request "ghp_token" 2])
              world_ready)
           TypeError).
  reflexivity.
Defined.



Lemma patch_service_after_checkout_witness :
  exists w' l,
    backportToCommand session_ok join_posix node_text 4 world_ready = Some (Ok tt, w') /\
    trace w' = trace world_ready ++ l /\
    (posts_in l = [] /\
     (commands_in l = [] \/
      exists tag, commands_in l = commands (snd (checkoutTag (git session_ok) tag [])))
     \/
     exists commit tags tag,
       commit_input session_ok = Some commit /\ tag_choice session_ok tags = Some tag /\
       fst (checkoutTag (git session_ok) tag []) = Ok tt /\
       commands_in l = commands (snd (checkoutTag (git session_ok) tag [])) /\
       posts_in l = [(commit, tag)]).
Proof.
  destruct (backportToCommand session_ok join_posix node_text 4 world_ready) as [[r w']|] eqn:Hrun;
    [|vm_compute in Hrun; discriminate Hrun].
  assert (Hr : r = Ok tt).
  { vm_compute in Hrun. injection Hrun as <- _. reflexivity. }
  subst r.
  destruct (patch_service_after_checkout session_ok join_posix node_text 4 world_ready w' (Ok tt) Hrun)
    as [l [Htrace Hposts]].
  exists w', l. split; [reflexivity|]. split; [exact Htrace|exact Hposts].
Defined.

(** X16 in a world without a token, and in one with a token where the
    user types no commit. *)
Lemma token_comes_first_witness :
  ((globalState world_fresh !! TOKEN_KEY = None
    \/ globalState world_fresh !! TOKEN_KEY = Some EmptyString) /\
   Ok tt = Ok tt /\
   extend [Host (ShowError "GitHub token not set. Run “Set GitHub Token…” first.")] world_fresh
   = extend [Host (ShowError "GitHub token not set. Run “Set GitHub Token…” first.")] world_fresh
   \/
   exists token l,
     globalState world_fresh !! TOKEN_KEY = Some token /\ token <> EmptyString /\
     trace (extend [Host (ShowError "GitHub token not set. Run “Set GitHub Token…” first.")]
              world_fresh)
     = trace world_fresh ++ commit_prompt :: l).
Proof.
  apply (token_comes_first session_ok join_posix node_text 0 world_fresh
           (extend [Host (ShowError "GitHub token not set. Run “Set GitHub Token…” first.")]
              world_fresh)
           (Ok tt)).
  reflexivity.
Defined.
